(** * Job creation in the production job queue (job_queue.py)

    A shallow embedding of [JobQueue.create_job] together with the part of
    Redis it talks to: one keyspace of string and list values with
    time-to-live attributes, the commands SETEX, LPUSH and EXPIRE (and
    LPOP for the consumer of a lane), and a connection that can fail.
    Python exceptions are an explicit outcome, the process state is
    threaded through a small state-and-exception monad.  The passage of
    time is not modelled: an expiry is an attribute of a key.

    Around it, the caller of [create_job]: the endpoint
    [scrape_linkedin_profiles] (api_production.py) with what it uses of
    security.py, the sanitiser of LinkedIn URLs, the daily quota and the
    log of security events, over the keyspace of that module's own
    client. *)

From Stdlib Require Import ZArith.
From Stdlib Require DecimalString DecimalZ DecimalPos.
From stdpp Require Import gmap strings list fin_maps pretty.

Local Open Scope Z_scope.
Local Open Scope string_scope.

(** ** Enumerations *)

Module JobStatus.
Inductive t := PENDING | STARTED | PROGRESS | SUCCESS | FAILURE | CANCELLED | RETRY.

Definition value (s : t) : string :=
  match s with
  | PENDING => "pending"
  | STARTED => "started"
  | PROGRESS => "progress"
  | SUCCESS => "success"
  | FAILURE => "failure"
  | CANCELLED => "cancelled"
  | RETRY => "retry"
  end.
End JobStatus.

Module JobPriority.
Inductive t := LOW | NORMAL | HIGH | URGENT.

Definition value (p : t) : Z :=
  match p with
  | LOW => 1
  | NORMAL => 5
  | HIGH => 8
  | URGENT => 10
  end.

Definition name (p : t) : string :=
  match p with
  | LOW => "LOW"
  | NORMAL => "NORMAL"
  | HIGH => "HIGH"
  | URGENT => "URGENT"
  end.

#[global] Instance eq_dec : EqDecision t.
Proof. solve_decision. Defined.
End JobPriority.

(** ** Python values *)

(** What [json.dumps] accepts, floats left out.  A dict is kept as the list
    of its items, in insertion order. *)
#[local] Unset Elimination Schemes.
Inductive json :=
| JNull
| JBool (b : bool)
| JInt (n : Z)
| JStr (s : string)
| JList (items : list json)
| JDict (items : list (string * json)).
#[local] Set Elimination Schemes.

Definition PyDict : Type := list (string * json).

(** [json.dumps] is a library function; the text it produces is kept
    symbolic, as the document it renders. *)
Inductive JsonText := json_dumps (doc : json).

(** The [JobInfo] dataclass. *)
Record JobInfo := {
  job_id : string;
  job_type : string;
  status : string;
  priority : Z;
  created_at : string;
  started_at : option string;
  completed_at : option string;
  progress : Z;
  progress_message : string;
  parameters : option PyDict;
  result : option PyDict;
  error_message : option string;
  retry_count : Z;
  max_retries : Z;
  user_id : option string
}.

(** The keyword call [JobInfo(job_id=.., job_type=.., status=.., priority=..,
    created_at=.., parameters=.., max_retries=.., user_id=..)]: every field
    that is not passed takes the default of the dataclass. *)
Definition JobInfo_init (job_id job_type status : string) (priority : Z)
    (created_at : string) (parameters : PyDict) (max_retries : Z)
    (user_id : option string) : JobInfo :=
  {| job_id := job_id;
     job_type := job_type;
     status := status;
     priority := priority;
     created_at := created_at;
     started_at := None;
     completed_at := None;
     progress := 0;
     progress_message := "";
     parameters := Some parameters;
     result := None;
     error_message := None;
     retry_count := 0;
     max_retries := max_retries;
     user_id := user_id |}.

Definition json_of_option {A} (f : A -> json) (o : option A) : json :=
  match o with
  | Some a => f a
  | None => JNull
  end.

(** [dataclasses.asdict]: the fields in declaration order. *)
Definition asdict (j : JobInfo) : PyDict :=
  [ ("job_id", JStr (job_id j));
    ("job_type", JStr (job_type j));
    ("status", JStr (status j));
    ("priority", JInt (priority j));
    ("created_at", JStr (created_at j));
    ("started_at", json_of_option JStr (started_at j));
    ("completed_at", json_of_option JStr (completed_at j));
    ("progress", JInt (progress j));
    ("progress_message", JStr (progress_message j));
    ("parameters", json_of_option JDict (parameters j));
    ("result", json_of_option JDict (result j));
    ("error_message", json_of_option JStr (error_message j));
    ("retry_count", JInt (retry_count j));
    ("max_retries", JInt (max_retries j));
    ("user_id", json_of_option JStr (user_id j)) ].

(** [parameters or {}]: [None] and the empty dict are both falsy. *)
Definition dict_or_empty (parameters : option PyDict) : PyDict :=
  match parameters with
  | Some (item :: items) => item :: items
  | Some [] => []
  | None => []
  end.

(** Truth value of an [Optional[str]], as [if user_id:] tests it: [None]
    and the empty string are falsy. *)
Definition truthy (s : option string) : bool :=
  match s with
  | Some (String _ _) => true
  | Some EmptyString => false
  | None => false
  end.

(** [timedelta(days=d)], in the whole seconds redis-py sends. *)
Definition timedelta_days (d : Z) : Z := d * 86400.

(** ** Exceptions and outcomes *)

Inductive Exception :=
| RedisConnectionError
| RedisResponseError
| OtherError (what : string).

Inductive Outcome (A : Type) :=
| Returned (a : A)
| Raised (e : Exception).
Arguments Returned {A} a.
Arguments Raised {A} e.

(** ** Redis *)

Inductive RedisValue :=
| RString (text : JsonText)
| RList (items : list string).

Record Entry := { value : RedisValue; ttl : option Z }.

Inductive Command :=
| SETEX (key : string) (seconds : Z) (text : JsonText)
| LPUSH (key : string) (item : string)
| EXPIRE (key : string) (seconds : Z)
| LPOP (key : string).

Definition command_key (c : Command) : string :=
  match c with
  | SETEX key _ _ => key
  | LPUSH key _ => key
  | EXPIRE key _ => key
  | LPOP key => key
  end.

(** The server's data, the commands sent so far (newest first), and the
    fate of the coming commands: [true] at position [i] means that the
    [i]-th command from now is lost with the connection; past the end of
    the script the store is up. *)
Record Redis := {
  keyspace : gmap string Entry;
  issued : list Command;
  faults : list bool
}.

(** What a command does to the keyspace when it reaches the server. *)

Definition setex_effect (key : string) (seconds : Z) (text : JsonText)
    (ks : gmap string Entry) : Outcome (bool * gmap string Entry) :=
  Returned (true, <[key := {| value := RString text; ttl := Some seconds |}]> ks).

(** LPUSH inserts at the head, creates the list when the key is absent,
    keeps the key's time to live, and refuses a key that holds a string. *)
Definition lpush_effect (key item : string)
    (ks : gmap string Entry) : Outcome (Z * gmap string Entry) :=
  match ks !! key with
  | None =>
      Returned (1, <[key := {| value := RList [item]; ttl := None |}]> ks)
  | Some {| value := RList items; ttl := t |} =>
      Returned (Z.of_nat (S (length items)),
                <[key := {| value := RList (item :: items); ttl := t |}]> ks)
  | Some {| value := RString _ |} => Raised RedisResponseError
  end.

Definition expire_effect (key : string) (seconds : Z)
    (ks : gmap string Entry) : Outcome (bool * gmap string Entry) :=
  match ks !! key with
  | None => Returned (false, ks)
  | Some e =>
      Returned (true, <[key := {| value := value e; ttl := Some seconds |}]> ks)
  end.

(** LPOP takes the first element; a list that becomes empty is removed. *)
Definition lpop_effect (key : string)
    (ks : gmap string Entry) : Outcome (option string * gmap string Entry) :=
  match ks !! key with
  | None => Returned (None, ks)
  | Some {| value := RList items; ttl := t |} =>
      match items with
      | [] => Returned (None, delete key ks)
      | first :: others =>
          Returned (Some first,
                    match others with
                    | [] => delete key ks
                    | _ => <[key := {| value := RList others; ttl := t |}]> ks
                    end)
      end
  | Some {| value := RString _ |} => Raised RedisResponseError
  end.

(** One round trip: the command is recorded, one entry of the fault script
    is consumed, and a command that is lost or refused leaves the data as
    they were. *)
Definition round_trip {A} (c : Command)
    (effect : gmap string Entry -> Outcome (A * gmap string Entry))
    (r : Redis) : Outcome A * Redis :=
  let sent ks := {| keyspace := ks; issued := c :: issued r; faults := tail (faults r) |} in
  match faults r with
  | true :: _ => (Raised RedisConnectionError, sent (keyspace r))
  | _ =>
      match effect (keyspace r) with
      | Returned (a, ks) => (Returned a, sent ks)
      | Raised e => (Raised e, sent (keyspace r))
      end
  end.

(** The lane a priority level is queued on, the record key of a job, and
    the index key of a user. *)
Definition priority_queue_key (p : JobPriority.t) : string :=
  "queue:priority:" +:+ pretty (JobPriority.value p).
Definition job_key_of (job_id : string) : string := "job:" +:+ job_id.
Definition user_jobs_key_of (user_id : string) : string := "user_jobs:" +:+ user_id.

(** The two library calls whose result differs from call to call:
    [uuid.uuid4().hex] and [datetime.utcnow().isoformat()]. *)
Record Ambient := { uuid4_hex : string; utcnow_isoformat : string }.

(** Line 106: [job_id = f"job_{uuid.uuid4().hex}"]. *)
Definition new_job_id (env : Ambient) : string := "job_" +:+ uuid4_hex env.

(** ** The queue process *)

Section Model.

(** The Celery application is outside this module's reach: its state is
    an arbitrary type. *)
Variable Celery : Type.

(** What [JobQueue] holds ([self.redis_client], [self.celery_app]) and
    the lines the module's logger has received, newest first. *)
Record World := {
  redis_client : Redis;
  celery_app : Celery;
  logger : list string
}.

(** Computations that read and change the process state and either
    return a value or raise. *)
Definition M (A : Type) : Type := World -> Outcome A * World.

Definition ret {A} (a : A) : M A := fun w => (Returned a, w).

Definition bind {A B} (c : M A) (k : A -> M B) : M B :=
  fun w =>
    match c w with
    | (Returned a, w') => k a w'
    | (Raised e, w') => (Raised e, w')
    end.

Notation "x <- c ;; k" := (bind c (fun x => k))
  (at level 20, c at level 99, k at level 200, right associativity).
Notation "'run' c ;; k" := (bind c (fun _ => k))
  (at level 20, c at level 99, k at level 200, right associativity).

Definition on_redis {A} (f : Redis -> Outcome A * Redis) : M A :=
  fun w =>
    let (out, r) := f (redis_client w) in
    (out, {| redis_client := r; celery_app := celery_app w; logger := logger w |}).

Definition on_celery {A} (f : Celery -> Outcome A * Celery) : M A :=
  fun w =>
    let (out, c) := f (celery_app w) in
    (out, {| redis_client := redis_client w; celery_app := c; logger := logger w |}).

Definition setex (key : string) (seconds : Z) (text : JsonText) : M bool :=
  on_redis (round_trip (SETEX key seconds text) (setex_effect key seconds text)).

Definition lpush (key item : string) : M Z :=
  on_redis (round_trip (LPUSH key item) (lpush_effect key item)).

Definition expire (key : string) (seconds : Z) : M bool :=
  on_redis (round_trip (EXPIRE key seconds) (expire_effect key seconds)).

Definition lpop (key : string) : M (option string) :=
  on_redis (round_trip (LPOP key) (lpop_effect key)).

Definition logger_info (line : string) : M unit :=
  fun w =>
    (Returned tt,
     {| redis_client := redis_client w; celery_app := celery_app w;
        logger := line :: logger w |}).

(** [_dispatch_celery_task(job_id, job_type, parameters)] is defined
    after line 139, where the available part of job_queue.py ends; it is
    taken as a parameter: any function of its three arguments and the
    Celery application that returns or raises. *)
Variable _dispatch_celery_task :
  string -> string -> option PyDict -> Celery -> Outcome unit * Celery.

(** Lines 106 to 139 of [create_job]. *)
Definition create_job_body (env : Ambient) (job_type : string)
    (parameters : option PyDict) (priority : JobPriority.t)
    (user_id : option string) (max_retries : Z) : M unit :=
  let job_id := new_job_id env in
  let job_info :=
    JobInfo_init job_id job_type
      (JobStatus.value JobStatus.PENDING)
      (JobPriority.value priority)
      (utcnow_isoformat env)
      (dict_or_empty parameters)
      max_retries
      user_id in
  (* Store job information in Redis *)
  let job_key := job_key_of job_id in
  run setex job_key (timedelta_days 7) (json_dumps (JDict (asdict job_info))) ;;
  (* Add to priority queue *)
  let priority_queue := priority_queue_key priority in
  run lpush priority_queue job_id ;;
  (* Add to user's job list if user_id provided *)
  run (if truthy user_id then
          let user_jobs_key := user_jobs_key_of (default "" user_id) in
          run lpush user_jobs_key job_id ;;
          run expire user_jobs_key (86400 * 30) ;;
          ret tt
        else ret tt) ;;
  (* Dispatch to Celery based on job type *)
  run on_celery (_dispatch_celery_task job_id job_type parameters) ;;
  logger_info ("Created job " +:+ job_id +:+ " of type " +:+ job_type
               +:+ " with priority " +:+ JobPriority.name priority).

(** Modelled from the spec: the return statement of [create_job], which
    comes after line 139, where the available part of job_queue.py ends.
    Section 4.2: "Returns the [job_id] immediately". *)
Definition create_job (env : Ambient) (job_type : string)
    (parameters : option PyDict) (priority : JobPriority.t)
    (user_id : option string) (max_retries : Z) : M string :=
  run create_job_body env job_type parameters priority user_id max_retries ;;
  ret (new_job_id env).

(** Modelled from the spec: the Dispatcher's pull of the next job of a
    lane, which is not in the available part of job_queue.py.  Section 5
    makes it an atomic list pop.  Section 4.2 has a job appended "to the
    tail" of the lane's list and section 4.3 has the lane served first in,
    first out: the pull takes the element at the head of the list.
    Sections 4.3 and 9 say the same of the source, whose "push/pop ends"
    make the list "a stack (most-recently-pushed served first)": the pop
    is at the end where the source pushes, and [create_job] pushes with
    LPUSH, at the head.  The pull is LPOP. *)
Definition dispatch_pull (priority : JobPriority.t) : M (option string) :=
  lpop (priority_queue_key priority).

(** At most [n] pulls from one lane, until it is found empty; the jobs in
    the order they were pulled. *)
Fixpoint dispatch_drain (n : nat) (priority : JobPriority.t) : M (list string) :=
  match n with
  | O => ret []
  | S n' =>
      pulled <- dispatch_pull priority ;;
      match pulled with
      | None => ret []
      | Some job_id =>
          later <- dispatch_drain n' priority ;;
          ret (job_id :: later)
      end
  end.

(** The arguments of one call of [create_job], with what the clock and
    the uuid generator give during it. *)
Record Request := {
  req_env : Ambient;
  req_job_type : string;
  req_parameters : option PyDict;
  req_priority : JobPriority.t;
  req_user_id : option string;
  req_max_retries : Z
}.

Definition submit (q : Request) : M string :=
  create_job (req_env q) (req_job_type q) (req_parameters q)
    (req_priority q) (req_user_id q) (req_max_retries q).

(** A caller submitting one job after the other. *)
Fixpoint submit_all (qs : list Request) : M (list string) :=
  match qs with
  | [] => ret []
  | q :: qs' =>
      job_id <- submit q ;;
      later <- submit_all qs' ;;
      ret (job_id :: later)
  end.

End Model.

Arguments redis_client {Celery} w.
Arguments celery_app {Celery} w.
Arguments logger {Celery} w.
Arguments Build_World {Celery} redis_client celery_app logger.
Arguments create_job_body {Celery} _dispatch_celery_task env job_type parameters
  priority user_id max_retries w.
Arguments create_job {Celery} _dispatch_celery_task env job_type parameters
  priority user_id max_retries w.
Arguments dispatch_pull {Celery} priority w.
Arguments dispatch_drain {Celery} n priority w.
Arguments submit {Celery} _dispatch_celery_task q w.
Arguments submit_all {Celery} _dispatch_celery_task qs w.

(** ** Reading the keyspace *)

(** The list a key holds, as LRANGE key 0 -1 would show it: empty when the
    key is absent (or holds a string). *)
Definition list_at (key : string) (ks : gmap string Entry) : list string :=
  match ks !! key with
  | Some {| value := RList items |} => items
  | _ => []
  end.

Definition ttl_at (key : string) (ks : gmap string Entry) : option Z :=
  match ks !! key with
  | Some e => ttl e
  | None => None
  end.

(** The key can take an LPUSH: it is absent or holds a list. *)
Definition accepts_list (key : string) (ks : gmap string Entry) : bool :=
  match ks !! key with
  | Some {| value := RString _ |} => false
  | _ => true
  end.

(** The keyspace after a successful LPUSH. *)
Definition lpushed (key item : string) (ks : gmap string Entry) : gmap string Entry :=
  <[key := {| value := RList (item :: list_at key ks); ttl := ttl_at key ks |}]> ks.

(** The next [n] commands reach the server. *)
Fixpoint store_up (n : nat) (script : list bool) : bool :=
  match n, script with
  | O, _ => true
  | S _, [] => true
  | S n', lost :: script' => negb lost && store_up n' script'
  end.

(** The commands [create_job] sends when nothing fails: two, and two more
    for a user. *)
Definition writes_of (user_id : option string) : nat :=
  if truthy user_id then 4%nat else 2%nat.

(** The record [create_job] builds for its arguments. *)
Definition job_record (env : Ambient) (job_type : string)
    (parameters : option PyDict) (priority : JobPriority.t)
    (user_id : option string) (max_retries : Z) : JobInfo :=
  JobInfo_init (new_job_id env) job_type (JobStatus.value JobStatus.PENDING)
    (JobPriority.value priority) (utcnow_isoformat env)
    (dict_or_empty parameters) max_retries user_id.

(** The store takes the writes of a call: the coming commands reach the
    server, and neither the lane's key nor the user's holds a string. *)
Definition store_takes (priority : JobPriority.t) (user_id : option string)
    (r : Redis) : bool :=
  store_up (writes_of user_id) (faults r)
  && accepts_list (priority_queue_key priority) (keyspace r)
  && (if truthy user_id
      then accepts_list (user_jobs_key_of (default "" user_id)) (keyspace r)
      else true).

(** The entry SETEX leaves under the job's key. *)
Definition job_entry (env : Ambient) (job_type : string)
    (parameters : option PyDict) (priority : JobPriority.t)
    (user_id : option string) (max_retries : Z) : Entry :=
  {| value := RString (json_dumps (JDict (asdict
       (job_record env job_type parameters priority user_id max_retries))));
     ttl := Some 604800 |}.

(** The keyspace after the record and the lane entry are written. *)
Definition queued_keyspace (env : Ambient) (job_type : string)
    (parameters : option PyDict) (priority : JobPriority.t)
    (user_id : option string) (max_retries : Z)
    (ks : gmap string Entry) : gmap string Entry :=
  lpushed (priority_queue_key priority) (new_job_id env)
    (<[job_key_of (new_job_id env) :=
         job_entry env job_type parameters priority user_id max_retries]> ks).

(** The keyspace after all the writes of a call. *)
Definition final_keyspace (env : Ambient) (job_type : string)
    (parameters : option PyDict) (priority : JobPriority.t)
    (user_id : option string) (max_retries : Z)
    (ks : gmap string Entry) : gmap string Entry :=
  let queued := queued_keyspace env job_type parameters priority user_id max_retries ks in
  if truthy user_id then
    let user_jobs_key := user_jobs_key_of (default "" user_id) in
    <[user_jobs_key :=
        {| value := RList (new_job_id env :: list_at user_jobs_key queued);
           ttl := Some 2592000 |}]> queued
  else queued.

(** The commands of a call, in the order sent. *)
Definition call_commands (env : Ambient) (job_type : string)
    (parameters : option PyDict) (priority : JobPriority.t)
    (user_id : option string) (max_retries : Z) : list Command :=
  [ SETEX (job_key_of (new_job_id env)) 604800
      (json_dumps (JDict (asdict
         (job_record env job_type parameters priority user_id max_retries))));
    LPUSH (priority_queue_key priority) (new_job_id env) ]
  ++ (if truthy user_id then
        [ LPUSH (user_jobs_key_of (default "" user_id)) (new_job_id env);
          EXPIRE (user_jobs_key_of (default "" user_id)) 2592000 ]
      else []).

(** The line [create_job] logs. *)
Definition created_line (env : Ambient) (job_type : string)
    (priority : JobPriority.t) : string :=
  "Created job " +:+ new_job_id env +:+ " of type " +:+ job_type
  +:+ " with priority " +:+ JobPriority.name priority.

(** The keyspace once the first [n] writes of a call are in place. *)
Definition written (n : nat) (env : Ambient) (job_type : string)
    (parameters : option PyDict) (priority : JobPriority.t)
    (user_id : option string) (max_retries : Z)
    (ks : gmap string Entry) : gmap string Entry :=
  match n with
  | 0%nat => ks
  | 1%nat => <[job_key_of (new_job_id env) :=
                 job_entry env job_type parameters priority user_id max_retries]> ks
  | 2%nat => queued_keyspace env job_type parameters priority user_id max_retries ks
  | 3%nat =>
      if truthy user_id then
        lpushed (user_jobs_key_of (default "" user_id)) (new_job_id env)
          (queued_keyspace env job_type parameters priority user_id max_retries ks)
      else queued_keyspace env job_type parameters priority user_id max_retries ks
  | _ => final_keyspace env job_type parameters priority user_id max_retries ks
  end.

(** ** Commands as data *)

(** Sending one recorded command, its reply dropped. *)
Definition perform (c : Command) (r : Redis) : Outcome unit * Redis :=
  let reply {A} (res : Outcome A * Redis) : Outcome unit * Redis :=
    match res with
    | (Returned _, r') => (Returned tt, r')
    | (Raised e, r') => (Raised e, r')
    end in
  match c with
  | SETEX key seconds text => reply (round_trip c (setex_effect key seconds text) r)
  | LPUSH key item => reply (round_trip c (lpush_effect key item) r)
  | EXPIRE key seconds => reply (round_trip c (expire_effect key seconds) r)
  | LPOP key => reply (round_trip c (lpop_effect key) r)
  end.

(** Sending a sequence of commands up to the first that raises. *)
Fixpoint perform_all (cs : list Command) (r : Redis) : Outcome unit * Redis :=
  match cs with
  | [] => (Returned tt, r)
  | c :: cs' =>
      match perform c r with
      | (Returned _, r') => perform_all cs' r'
      | (Raised e, r') => (Raised e, r')
      end
  end.

(** The job ids of the requests of a sequence that go to one lane, in the
    order of the requests. *)
Definition lane_ids (p : JobPriority.t) (qs : list Request) : list string :=
  map (fun q => new_job_id (req_env q)) (filter (fun q => req_priority q = p) qs).

(** ** Stand-ins for the worker backend, for concrete runs *)

(** A broker that takes every task, and one that is down. *)
Definition broker_accepts (job_id job_type : string) (parameters : option PyDict)
    (tasks : list (string * string)) : Outcome unit * list (string * string) :=
  (Returned tt, (job_type, job_id) :: tasks).

Definition broker_down (job_id job_type : string) (parameters : option PyDict)
    (tasks : list (string * string)) : Outcome unit * list (string * string) :=
  (Raised (OtherError "OperationalError"), tasks).

Definition fresh_redis (script : list bool) : Redis :=
  {| keyspace := ∅; issued := []; faults := script |}.

Definition fresh_world (script : list bool) : World (list (string * string)) :=
  {| redis_client := fresh_redis script; celery_app := []; logger := [] |}.

Definition env1 : Ambient :=
  {| uuid4_hex := "0a1b"; utcnow_isoformat := "2024-01-01T00:00:00" |}.
Definition env2 : Ambient :=
  {| uuid4_hex := "2c3d"; utcnow_isoformat := "2024-01-01T00:00:01" |}.

(** A store whose NORMAL lane already holds one job. *)
Definition busy_world : World (list (string * string)) :=
  {| redis_client :=
       {| keyspace := {[ "queue:priority:5" :=
                           {| value := RList ["job_old"]; ttl := None |} ]};
          issued := [];
          faults := [] |};
     celery_app := [];
     logger := [] |}.

(** Two requests for the URGENT lane, and one for the LOW lane. *)
Definition request_a : Request :=
  {| req_env := env1; req_job_type := "scrape";
     req_parameters := Some [("url", JStr "https://x")];
     req_priority := JobPriority.URGENT; req_user_id := Some "u1";
     req_max_retries := 3 |}.

Definition request_b : Request :=
  {| req_env := env2; req_job_type := "scrape";
     req_parameters := None;
     req_priority := JobPriority.URGENT; req_user_id := None;
     req_max_retries := 3 |}.

Definition request_c : Request :=
  {| req_env := {| uuid4_hex := "4e5f"; utcnow_isoformat := "2024-01-01T00:00:02" |};
     req_job_type := "export";
     req_parameters := None;
     req_priority := JobPriority.LOW; req_user_id := None;
     req_max_retries := 0 |}.

(** ** Reading a stored record *)

(** The document under a key that holds a serialised record. *)
Definition stored_document (key : string) (ks : gmap string Entry) : option json :=
  match ks !! key with
  | Some {| value := RString (json_dumps doc) |} => Some doc
  | _ => None
  end.

(** The value of a field of a JSON object. *)
Definition json_get (name : string) (doc : json) : option json :=
  match doc with
  | JDict items =>
      match find (fun item => String.eqb (fst item) name) items with
      | Some item => Some (snd item)
      | None => None
      end
  | _ => None
  end.

(** ** Sequences of requests *)

(** The job ids of the requests of a sequence made for one user, in the
    order of the requests. *)
Definition user_ids (u : string) (qs : list Request) : list string :=
  map (fun q => new_job_id (req_env q)) (filter (fun q => req_user_id q = Some u) qs).

(** The entry a request leaves under the key of its job. *)
Definition request_entry (q : Request) : Entry :=
  job_entry (req_env q) (req_job_type q) (req_parameters q) (req_priority q)
    (req_user_id q) (req_max_retries q).

(** A store whose NORMAL lane key holds a string. *)
Definition clashing_world : World (list (string * string)) :=
  {| redis_client :=
       {| keyspace := {[ "queue:priority:5" :=
                           {| value := RString (json_dumps JNull); ttl := Some 60 |} ]};
          issued := [];
          faults := [] |};
     celery_app := [];
     logger := [] |}.

(** ** Python strings (security.py, api_production.py)

    A [str] is the string of its code points; the methods below are those
    of [str] on code points below 256. *)

(** [c.isspace()]: the white space strip() removes. *)
Definition py_isspace (c : Ascii.ascii) : bool :=
  let n := Ascii.nat_of_ascii c in
  ((9 <=? n) && (n <=? 13) || (28 <=? n) && (n <=? 32) || (n =? 133) || (n =? 160))%nat.

Fixpoint py_lstrip (s : string) : string :=
  match s with
  | EmptyString => EmptyString
  | String c s' => if py_isspace c then py_lstrip s' else s
  end.

Fixpoint py_rstrip (s : string) : string :=
  match s with
  | EmptyString => EmptyString
  | String c s' =>
      match py_rstrip s' with
      | EmptyString => if py_isspace c then EmptyString else String c EmptyString
      | String c' kept => String c (String c' kept)
      end
  end.

(** [s.strip()]. *)
Definition py_strip (s : string) : string := py_rstrip (py_lstrip s).

(** [sub in s]. *)
Fixpoint py_in (sub s : string) : bool :=
  String.prefix sub s ||
  match s with
  | EmptyString => false
  | String _ s' => py_in sub s'
  end.

(** [s.replace(old, new)] for a non-empty [old]: the occurrences of [old]
    are found from the left and do not overlap; [skip] counts the
    characters of an occurrence that are still to be passed over. *)
Fixpoint py_replace_from (old new : string) (skip : nat) (s : string) : string :=
  match s with
  | EmptyString => EmptyString
  | String c s' =>
      match skip with
      | S skip' => py_replace_from old new skip' s'
      | O =>
          if String.prefix old s
          then new +:+ py_replace_from old new (String.length old - 1) s'
          else String c (py_replace_from old new 0 s')
      end
  end.

Definition py_replace (old new s : string) : string := py_replace_from old new 0 s.

(** [c.lower()] and [s.lower()]. *)
Definition py_lower_char (c : Ascii.ascii) : Ascii.ascii :=
  let n := Ascii.nat_of_ascii c in
  if ((65 <=? n) && (n <=? 90) || (192 <=? n) && (n <=? 222) && negb (n =? 215))%nat
  then Ascii.ascii_of_nat (n + 32)
  else c.

Fixpoint py_lower (s : string) : string :=
  match s with
  | EmptyString => EmptyString
  | String c s' => String (py_lower_char c) (py_lower s')
  end.

(** ** Input sanitisation (security.py) *)

(** A value or a [ValueError] with its message. *)
Inductive Checked (A : Type) :=
| Valid (a : A)
| ValueError (message : string).
Arguments Valid {A} a.
Arguments ValueError {A} message.

(** [InputSanitizer.sanitize_linkedin_url]. *)
Definition sanitize_linkedin_url (url : string) : Checked string :=
  (* Remove potential XSS vectors *)
  let url := py_strip url in
  (* Validate LinkedIn URL format *)
  if negb (py_in "linkedin.com/in/" url || py_in "linkedin.com/pub/" url)
  then ValueError "Invalid LinkedIn URL format"
  else
    (* Ensure HTTPS *)
    if String.prefix "http://" url
    then Valid (py_replace "http://" "https://" url)
    else if negb (String.prefix "https://" url)
    then Valid ("https://" +:+ url)
    else Valid url.

(** The loop of the endpoint over the submitted URLs: the sanitised URLs
    in order, or the first URL that is refused with its error message. *)
Fixpoint validate_urls (urls : list string) : string * string + list string :=
  match urls with
  | [] => inr []
  | url :: urls' =>
      match sanitize_linkedin_url url with
      | ValueError message => inl (url, message)
      | Valid clean_url =>
          match validate_urls urls' with
          | inl refused => inl refused
          | inr validated_urls => inr (clean_url :: validated_urls)
          end
      end
  end.

(** The priority of a request: [priority_map.get(priority.lower(),
    JobPriority.NORMAL)]. *)
Definition priority_of_request (priority : string) : JobPriority.t :=
  let lowered := py_lower priority in
  if String.eqb lowered "low" then JobPriority.LOW
  else if String.eqb lowered "normal" then JobPriority.NORMAL
  else if String.eqb lowered "high" then JobPriority.HIGH
  else if String.eqb lowered "urgent" then JobPriority.URGENT
  else JobPriority.NORMAL.

(** ** The store of the security module (security.py)

    security.py opens its own client.  Its keys ("quota:...", "session:...",
    "security_events") share no prefix with those of the job queue, so its
    part of the keyspace is kept apart, with the values this module
    writes: texts and lists of texts. *)

(** A text: a given string, or [str(d)] of a dict [d], kept symbolic. *)
Inductive Text :=
| Plain (s : string)
| py_str_dict (items : PyDict).

(** Truth value of a text: [str(d)] of a dict is never empty. *)
Definition text_truthy (t : Text) : bool :=
  match t with
  | Plain EmptyString => false
  | Plain (String _ _) => true
  | py_str_dict _ => true
  end.

(** The decimal writing of an integer. *)
Definition decimal (z : Z) : string :=
  DecimalString.NilZero.string_of_int (Z.to_int z).

Definition int64_max : Z := 9223372036854775807.
Definition int64_min : Z := - 9223372036854775808.

(** The integer a text stands for in the eyes of Redis: the text has to be
    the decimal writing of a 64-bit integer, with no sign "+", no space
    and no leading zero. *)
Definition redis_integer (t : Text) : option Z :=
  match t with
  | Plain s =>
      match DecimalString.NilZero.int_of_string s with
      | Some d =>
          let z := Z.of_int d in
          if String.eqb (decimal z) s && (int64_min <=? z)%Z && (z <=? int64_max)%Z
          then Some z
          else None
      | None => None
      end
  | py_str_dict _ => None
  end.

Inductive SecValue :=
| SString (text : Text)
| SList (items : list Text).

Record SecEntry := { sec_value : SecValue; sec_ttl : option Z }.

(** The commands a pipeline queues. *)
Inductive Queued :=
| INCR (key : string)
| QEXPIRE (key : string) (seconds : Z).

Inductive SecCommand :=
| GET (key : string)
| EXEC (queued : list Queued)
| SLPUSH (key : string) (text : Text)
| LTRIM (key : string) (start stop : Z).

Record SecRedis := {
  sec_keyspace : gmap string SecEntry;
  sec_issued : list SecCommand;
  sec_faults : list bool
}.

Definition get_effect (key : string)
    (ks : gmap string SecEntry) : Outcome (option Text * gmap string SecEntry) :=
  match ks !! key with
  | None => Returned (None, ks)
  | Some {| sec_value := SString text |} => Returned (Some text, ks)
  | Some {| sec_value := SList _ |} => Raised RedisResponseError
  end.

(** INCR: an absent key counts as 0; the value has to be an integer below
    the largest; the expiry of the key is kept. *)
Definition incr_effect (key : string)
    (ks : gmap string SecEntry) : Outcome (Z * gmap string SecEntry) :=
  match ks !! key with
  | None =>
      Returned (1, <[key := {| sec_value := SString (Plain (decimal 1));
                               sec_ttl := None |}]> ks)
  | Some {| sec_value := SString text; sec_ttl := t |} =>
      match redis_integer text with
      | Some z =>
          if (z <? int64_max)%Z
          then Returned ((z + 1)%Z,
                         <[key := {| sec_value := SString (Plain (decimal (z + 1)%Z));
                                     sec_ttl := t |}]> ks)
          else Raised RedisResponseError
      | None => Raised RedisResponseError
      end
  | Some {| sec_value := SList _ |} => Raised RedisResponseError
  end.

Definition sec_expire_effect (key : string) (seconds : Z)
    (ks : gmap string SecEntry) : Outcome (bool * gmap string SecEntry) :=
  match ks !! key with
  | None => Returned (false, ks)
  | Some e =>
      Returned (true, <[key := {| sec_value := sec_value e; sec_ttl := Some seconds |}]> ks)
  end.

(** MULTI ... EXEC: the queued commands run one after the other; one that
    is refused changes nothing and does not stop the next; the first
    refusal is what [execute()] raises once all have run. *)
Fixpoint exec_effect (queued : list Queued) (ks : gmap string SecEntry)
    : option Exception * gmap string SecEntry :=
  match queued with
  | [] => (None, ks)
  | q :: queued' =>
      let step :=
        match q with
        | INCR key =>
            match incr_effect key ks with
            | Returned (_, ks') => (None, ks')
            | Raised e => (Some e, ks)
            end
        | QEXPIRE key seconds =>
            match sec_expire_effect key seconds ks with
            | Returned (_, ks') => (None, ks')
            | Raised e => (Some e, ks)
            end
        end in
      let (later, ks'') := exec_effect queued' (snd step) in
      (match fst step with
       | Some e => Some e
       | None => later
       end, ks'')
  end.

Definition slpush_effect (key : string) (text : Text)
    (ks : gmap string SecEntry) : Outcome (Z * gmap string SecEntry) :=
  match ks !! key with
  | None =>
      Returned (1, <[key := {| sec_value := SList [text]; sec_ttl := None |}]> ks)
  | Some {| sec_value := SList items; sec_ttl := t |} =>
      Returned (Z.of_nat (S (length items)),
                <[key := {| sec_value := SList (text :: items); sec_ttl := t |}]> ks)
  | Some {| sec_value := SString _ |} => Raised RedisResponseError
  end.

(** LTRIM for indexes that are not negative, as the module uses it: the
    elements from [start] to [stop], both included, are kept; a list left
    empty is removed. *)
Definition ltrim_effect (key : string) (start stop : Z)
    (ks : gmap string SecEntry) : Outcome (bool * gmap string SecEntry) :=
  match ks !! key with
  | None => Returned (true, ks)
  | Some {| sec_value := SList items; sec_ttl := t |} =>
      match take (Z.to_nat (stop - start + 1)%Z) (drop (Z.to_nat start) items) with
      | [] => Returned (true, delete key ks)
      | kept => Returned (true, <[key := {| sec_value := SList kept; sec_ttl := t |}]> ks)
      end
  | Some {| sec_value := SString _ |} => Raised RedisResponseError
  end.

(** One round trip of the security module's client. *)
Definition sec_round_trip {A} (c : SecCommand)
    (effect : gmap string SecEntry -> Outcome (A * gmap string SecEntry))
    (r : SecRedis) : Outcome A * SecRedis :=
  let sent ks := {| sec_keyspace := ks; sec_issued := c :: sec_issued r;
                    sec_faults := tail (sec_faults r) |} in
  match sec_faults r with
  | true :: _ => (Raised RedisConnectionError, sent (sec_keyspace r))
  | _ =>
      match effect (sec_keyspace r) with
      | Returned (a, ks) => (Returned a, sent ks)
      | Raised e => (Raised e, sent (sec_keyspace r))
      end
  end.

(** [pipe.execute()]: the transaction is sent in one piece.  When a
    queued command is refused the others have run all the same, and
    their effect stays: the error is raised over the keyspace they
    leave. *)
Definition sec_execute (queued : list Queued) (r : SecRedis) : Outcome unit * SecRedis :=
  let sent ks := {| sec_keyspace := ks; sec_issued := EXEC queued :: sec_issued r;
                    sec_faults := tail (sec_faults r) |} in
  match sec_faults r with
  | true :: _ => (Raised RedisConnectionError, sent (sec_keyspace r))
  | _ =>
      match exec_effect queued (sec_keyspace r) with
      | (None, ks) => (Returned tt, sent ks)
      | (Some e, ks) => (Raised e, sent ks)
      end
  end.

(** The integer a quota key counts, for the keys that behave as counters:
    0 when the key is absent. *)
Definition counter_at (key : string) (ks : gmap string SecEntry) : option Z :=
  match ks !! key with
  | None => Some 0
  | Some {| sec_value := SString text |} => redis_integer text
  | Some {| sec_value := SList _ |} => None
  end.

Definition sec_ttl_at (key : string) (ks : gmap string SecEntry) : option Z :=
  match ks !! key with
  | Some e => sec_ttl e
  | None => None
  end.

Definition events_at (key : string) (ks : gmap string SecEntry) : list Text :=
  match ks !! key with
  | Some {| sec_value := SList items |} => items
  | _ => []
  end.

Definition accepts_events (key : string) (ks : gmap string SecEntry) : bool :=
  match ks !! key with
  | Some {| sec_value := SString _ |} => false
  | _ => true
  end.

Definition quota_key_of (user_id operation : string) : string :=
  "quota:" +:+ user_id +:+ ":" +:+ operation.

(** ** Quotas and the security log (security.py) *)

Section Security.

(** Python's [int()] on a [str] that is not the decimal writing of a
    64-bit integer: the value, or [None] for a [ValueError]. *)
Variable py_int : string -> option Z.

(** [int(t)] for a text. *)
Definition int_of_text (t : Text) : option Z :=
  match t with
  | Plain s =>
      match redis_integer (Plain s) with
      | Some z => Some z
      | None => py_int s
      end
  | py_str_dict _ => None
  end.

(** The state of the security module: its client and what its logger
    received, newest first. *)
Record Security := {
  security_redis : SecRedis;
  security_logger : list string
}.

Definition on_security_redis {A} (f : SecRedis -> Outcome A * SecRedis)
    (s : Security) : Outcome A * Security :=
  let (out, r) := f (security_redis s) in
  (out, {| security_redis := r; security_logger := security_logger s |}).

(** [RateLimitManager.check_api_quota]. *)
Definition check_api_quota (user_id operation : string)
    (s : Security) : Outcome bool * Security :=
  let quota_key := quota_key_of user_id operation in
  match on_security_redis (sec_round_trip (GET quota_key) (get_effect quota_key)) s with
  | (Raised e, s') => (Raised e, s')
  | (Returned got, s') =>
      (* current_count = self.redis_client.get(quota_key) or 0 *)
      let current_count : option Z :=
        match got with
        | Some text => if text_truthy text then int_of_text text else Some 0
        | None => Some 0
        end in
      (* Get user's quota limit (could be stored in database) *)
      let daily_limit := 1000 in
      match current_count with
      | Some n => (Returned (n <? daily_limit)%Z, s')
      | None => (Raised (OtherError "ValueError"), s')
      end
  end.

(** [RateLimitManager.increment_api_usage]. *)
Definition increment_api_usage (user_id operation : string)
    (s : Security) : Outcome unit * Security :=
  let quota_key := quota_key_of user_id operation in
  on_security_redis (sec_execute [INCR quota_key; QEXPIRE quota_key 86400]) s.

(** The event [log_security_event] builds. *)
Definition security_event (timestamp event_type : string) (user_id : option string)
    (details : option PyDict) : PyDict :=
  [ ("event_type", JStr event_type);
    ("timestamp", JStr timestamp);
    ("user_id", json_of_option JStr user_id);
    ("details", JDict (dict_or_empty details)) ].

(** [log_security_event]; [timestamp] is what
    [datetime.utcnow().isoformat()] gives during the call. *)
Definition log_security_event (timestamp event_type : string) (user_id : option string)
    (details : option PyDict) (s : Security) : Outcome unit * Security :=
  let event := security_event timestamp event_type user_id details in
  (* Store in Redis for real-time monitoring *)
  match on_security_redis
          (sec_round_trip (SLPUSH "security_events" (py_str_dict event))
             (slpush_effect "security_events" (py_str_dict event))) s with
  | (Raised e, s') => (Raised e, s')
  | (Returned _, s') =>
      match on_security_redis
              (sec_round_trip (LTRIM "security_events" 0 1000)
                 (ltrim_effect "security_events" 0 1000)) s' with
      | (Raised e, s'') => (Raised e, s'')
      | (Returned _, s'') =>
          (Returned tt,
           {| security_redis := security_redis s'';
              security_logger := ("Security event: " +:+ event_type)
                                 :: security_logger s'' |})
      end
  end.

(** [n] uses of a quota, one after the other, until one raises. *)
Fixpoint use_quota (n : nat) (user_id operation : string)
    (s : Security) : Outcome unit * Security :=
  match n with
  | O => (Returned tt, s)
  | S n' =>
      match increment_api_usage user_id operation s with
      | (Returned _, s') => use_quota n' user_id operation s'
      | (Raised e, s') => (Raised e, s')
      end
  end.

End Security.

Definition fresh_security (script : list bool) : Security :=
  {| security_redis := {| sec_keyspace := ∅; sec_issued := []; sec_faults := script |};
     security_logger := [] |}.

(** A store of the security module whose quota key for user "u1" does not
    hold an integer. *)
Definition spoilt_security : Security :=
  {| security_redis :=
       {| sec_keyspace := {[ "quota:u1:scraping" :=
                               {| sec_value := SString (Plain "many");
                                  sec_ttl := Some 60 |} ]};
          sec_issued := [];
          sec_faults := [] |};
     security_logger := [] |}.

(** A [py_int] for concrete runs: it refuses everything it is asked. *)
Definition int_refuses (s : string) : option Z := None.

(** ** The scraping endpoint (api_production.py) *)

(** What the endpoint gives back: the response model, or the
    [HTTPException] it raises. *)
Inductive Response :=
| JobResponse (job_id status message : string)
| HTTPException (status_code : Z) (detail : string).

Record ScrapeProfilesRequest := {
  urls : list string;
  scrape_priority : string
}.

(** What the clock and the uuid generator give during one request. *)
Record ScrapeEnv := {
  job_env : Ambient;
  event_timestamp : string
}.

Section Endpoint.

Variable Celery : Type.
Variable _dispatch_celery_task :
  string -> string -> option PyDict -> Celery -> Outcome unit * Celery.

(** The metrics collector belongs to a module that is not available; its
    state is an arbitrary type and [track_api_request(method, endpoint,
    status_code, response_time=0.1)] any function that returns or raises. *)
Variable Metrics : Type.
Variable track_api_request : string -> string -> Z -> Metrics -> Outcome unit * Metrics.

Variable py_int : string -> option Z.

(** The modules behind the endpoint, and the exceptions its logger has
    reported with "Error creating scraping job", newest first. *)
Record Api := {
  job_queue : World Celery;
  security : Security;
  metrics_collector : Metrics;
  api_errors : list Exception
}.

(** The body of [scrape_linkedin_profiles] for an authenticated user. *)
Definition scrape_linkedin_profiles (env : ScrapeEnv)
    (scrape_request : ScrapeProfilesRequest) (current_user_id : string)
    (a : Api) : Response * Api :=
  (* except Exception as e *)
  let failed (e : Exception) (q : World Celery) (s : Security) (m : Metrics) :=
    (HTTPException 500 "Failed to create scraping job",
     {| job_queue := q; security := s; metrics_collector := m;
        api_errors := e :: api_errors a |}) in
  (* Validate URLs *)
  match validate_urls (urls scrape_request) with
  | inl (url, message) =>
      (HTTPException 400 ("Invalid LinkedIn URL: " +:+ url +:+ " - " +:+ message), a)
  | inr validated_urls =>
      (* Check rate limits *)
      match check_api_quota py_int current_user_id "scraping" (security a) with
      | (Raised e, s1) => failed e (job_queue a) s1 (metrics_collector a)
      | (Returned false, s1) =>
          (HTTPException 429 "API quota exceeded for scraping operations",
           {| job_queue := job_queue a; security := s1;
              metrics_collector := metrics_collector a; api_errors := api_errors a |})
      | (Returned true, s1) =>
          (* Map priority *)
          let priority := priority_of_request (scrape_priority scrape_request) in
          (* Create scraping job *)
          match create_job _dispatch_celery_task (job_env env) "linkedin_scraping"
                  (Some [("urls", JList (map JStr validated_urls));
                         ("user_id", JStr current_user_id)])
                  priority (Some current_user_id) 3 (job_queue a) with
          | (Raised e, q1) => failed e q1 s1 (metrics_collector a)
          | (Returned job_id, q1) =>
              (* Increment API usage *)
              match increment_api_usage current_user_id "scraping" s1 with
              | (Raised e, s2) => failed e q1 s2 (metrics_collector a)
              | (Returned _, s2) =>
                  (* Track metrics *)
                  match track_api_request "POST" "/scrape/linkedin_profiles" 200
                          (metrics_collector a) with
                  | (Raised e, m1) => failed e q1 s2 m1
                  | (Returned _, m1) =>
                      (* Log job creation *)
                      match log_security_event (event_timestamp env) "job_created"
                              (Some current_user_id)
                              (Some [("job_id", JStr job_id);
                                     ("urls_count",
                                      JInt (Z.of_nat (length validated_urls)))])
                              s2 with
                      | (Raised e, s3) => failed e q1 s3 m1
                      | (Returned _, s3) =>
                          (JobResponse job_id "pending"
                             ("Scraping job created for "
                              +:+ pretty (length validated_urls) +:+ " profiles"),
                           {| job_queue := q1; security := s3; metrics_collector := m1;
                              api_errors := api_errors a |})
                      end
                  end
              end
          end
      end
  end.

End Endpoint.

Arguments job_queue {Celery Metrics} a.
Arguments security {Celery Metrics} a.
Arguments metrics_collector {Celery Metrics} a.
Arguments api_errors {Celery Metrics} a.
Arguments Build_Api {Celery Metrics} job_queue security metrics_collector api_errors.
Arguments scrape_linkedin_profiles {Celery} _dispatch_celery_task {Metrics}
  track_api_request py_int env scrape_request current_user_id a.

(** Stand-ins for concrete runs: a collector that counts the requests. *)
Definition counts_requests (method endpoint : string) (status_code : Z)
    (seen : nat) : Outcome unit * nat :=
  (Returned tt, S seen).

Definition fresh_api (queue_script security_script : list bool)
    : Api (list (string * string)) nat :=
  {| job_queue := fresh_world queue_script;
     security := fresh_security security_script;
     metrics_collector := 0%nat;
     api_errors := [] |}.

Definition scrape_env1 : ScrapeEnv :=
  {| job_env := env1; event_timestamp := "2024-01-01T00:00:05" |}.

(** A request for two profiles, and one whose second URL is no profile. *)
Definition scrape_two : ScrapeProfilesRequest :=
  {| urls := ["http://www.linkedin.com/in/ada "; "linkedin.com/pub/grace"];
     scrape_priority := "High" |}.

Definition scrape_bad : ScrapeProfilesRequest :=
  {| urls := ["https://www.linkedin.com/in/ada"; "https://example.com/ada"; "x"];
     scrape_priority := "urgent" |}.

(** The modules with the quota of user "u1" used up. *)
Definition spent_api : Api (list (string * string)) nat :=
  {| job_queue := fresh_world [];
     security :=
       {| security_redis :=
            {| sec_keyspace := {[ "quota:u1:scraping" :=
                                    {| sec_value := SString (Plain "1000");
                                       sec_ttl := Some 3600 |} ]};
               sec_issued := [];
               sec_faults := [] |};
          security_logger := [] |};
     metrics_collector := 0%nat;
     api_errors := [] |}.

(** * Properties *)

(** ** Redis commands *)

Lemma store_up_step n lost script :
  store_up (S n) (lost :: script) = true -> lost = false /\ store_up n script = true.
Proof.
  simpl. intros H. apply andb_prop in H as [Hl Hs].
  split; [by destruct lost | done].
Qed.

Lemma store_up_weaken n m script :
  (n <= m)%nat -> store_up m script = true -> store_up n script = true.
Proof.
  revert m script. induction n as [|n IH]; intros m script Hle H; [done|].
  destruct m as [|m]; [lia|].
  destruct script as [|lost script]; [done|].
  apply store_up_step in H as [-> H]. simpl. apply (IH m); [lia | done].
Qed.

Lemma store_up_nil n : store_up n [] = true.
Proof. by destruct n. Qed.

Lemma round_trip_up {A} (c : Command)
    (effect : gmap string Entry -> Outcome (A * gmap string Entry)) (r : Redis) :
  store_up 1 (faults r) = true ->
  round_trip c effect r =
    match effect (keyspace r) with
    | Returned (a, ks) =>
        (Returned a, {| keyspace := ks; issued := c :: issued r; faults := tail (faults r) |})
    | Raised e =>
        (Raised e, {| keyspace := keyspace r; issued := c :: issued r; faults := tail (faults r) |})
    end.
Proof.
  unfold round_trip. destruct (faults r) as [|[] script]; simpl; [done| |done].
  discriminate.
Qed.

Lemma round_trip_lost {A} (c : Command)
    (effect : gmap string Entry -> Outcome (A * gmap string Entry)) (r : Redis) script :
  faults r = true :: script ->
  round_trip c effect r =
    (Raised RedisConnectionError,
     {| keyspace := keyspace r; issued := c :: issued r; faults := script |}).
Proof. unfold round_trip. by intros ->. Qed.

Lemma lpush_effect_accepted key item ks :
  accepts_list key ks = true ->
  lpush_effect key item ks =
    Returned (Z.of_nat (S (length (list_at key ks))), lpushed key item ks).
Proof.
  unfold accepts_list, lpush_effect, lpushed, list_at, ttl_at.
  destruct (ks !! key) as [[[text|items] t]|]; simpl; [discriminate|done|done].
Qed.

Lemma lpush_effect_refused key item ks :
  accepts_list key ks = false -> lpush_effect key item ks = Raised RedisResponseError.
Proof.
  unfold accepts_list, lpush_effect.
  destruct (ks !! key) as [[[text|items] t]|]; simpl; [done|discriminate|discriminate].
Qed.

Lemma list_at_lpushed key item ks :
  list_at key (lpushed key item ks) = item :: list_at key ks.
Proof. unfold lpushed. unfold list_at at 1. by rewrite lookup_insert_eq. Qed.

Lemma lookup_lpushed_ne key key' item ks :
  key <> key' -> lpushed key item ks !! key' = ks !! key'.
Proof. intros Hne. unfold lpushed. by rewrite lookup_insert_ne. Qed.

Lemma list_at_lpushed_ne key key' item ks :
  key <> key' -> list_at key' (lpushed key item ks) = list_at key' ks.
Proof. intros Hne. unfold list_at. by rewrite lookup_lpushed_ne. Qed.

Lemma accepts_list_lpushed key key' item ks :
  accepts_list key' ks = true -> accepts_list key' (lpushed key item ks) = true.
Proof.
  intros H. unfold accepts_list, lpushed.
  destruct (decide (key = key')) as [->|Hne].
  - by rewrite lookup_insert_eq.
  - by rewrite lookup_insert_ne.
Qed.

(** ** Keys *)

Lemma job_key_not_lane job_id p : job_key_of job_id <> priority_queue_key p.
Proof. unfold job_key_of, priority_queue_key. discriminate. Qed.

Lemma job_key_not_user job_id u : job_key_of job_id <> user_jobs_key_of u.
Proof. unfold job_key_of, user_jobs_key_of. discriminate. Qed.

Lemma lane_not_user p u : priority_queue_key p <> user_jobs_key_of u.
Proof. unfold priority_queue_key, user_jobs_key_of. discriminate. Qed.

Lemma priority_queue_key_inj p q : priority_queue_key p = priority_queue_key q -> p = q.
Proof. destruct p, q; vm_compute; congruence. Qed.


Lemma store_up_tail n script : store_up (S n) script = true -> store_up n (tail script) = true.
Proof.
  destruct script as [|lost script]; [intros _; apply store_up_nil|].
  intros H. by apply store_up_step in H as [_ H].
Qed.

Lemma store_up_head n script : store_up (S n) script = true -> store_up 1 script = true.
Proof. apply store_up_weaken. lia. Qed.

Lemma tail_drop {A} n (l : list A) : tail (drop n l) = drop (S n) l.
Proof.
  revert l. induction n as [|n IH]; intros [|x l]; simpl; done.
Qed.

(** ** Sequences of commands *)

Lemma round_trip_sent {A} (c : Command)
    (effect : gmap string Entry -> Outcome (A * gmap string Entry)) (r : Redis) :
  issued (snd (round_trip c effect r)) = c :: issued r
  /\ faults (snd (round_trip c effect r)) = tail (faults r).
Proof.
  unfold round_trip.
  destruct (faults r) as [|[] script]; [| done |];
    by destruct (effect (keyspace r)) as [[a ks]|e].
Qed.

(** A command whose effect is confined to one key leaves the others. *)
Lemma round_trip_others {A} (c : Command)
    (effect : gmap string Entry -> Outcome (A * gmap string Entry)) (r : Redis) key :
  (forall ks a ks', effect ks = Returned (a, ks') -> ks' !! key = ks !! key) ->
  keyspace (snd (round_trip c effect r)) !! key = keyspace r !! key.
Proof.
  intros Hconf. unfold round_trip.
  destruct (faults r) as [|[] script]; [| done |];
    (destruct (effect (keyspace r)) as [[a ks]|e] eqn:Heff; [|done]);
    simpl; by eapply Hconf.
Qed.

Lemma setex_effect_others k seconds text key ks a ks' :
  k <> key -> setex_effect k seconds text ks = Returned (a, ks') -> ks' !! key = ks !! key.
Proof. unfold setex_effect. intros Hne [= _ <-]. by rewrite lookup_insert_ne. Qed.

Lemma lpush_effect_others k item key ks a ks' :
  k <> key -> lpush_effect k item ks = Returned (a, ks') -> ks' !! key = ks !! key.
Proof.
  unfold lpush_effect. intros Hne.
  destruct (ks !! k) as [[[text|items] t]|]; [done| |];
    intros [= _ <-]; by rewrite lookup_insert_ne.
Qed.

Lemma expire_effect_others k seconds key ks a ks' :
  k <> key -> expire_effect k seconds ks = Returned (a, ks') -> ks' !! key = ks !! key.
Proof.
  unfold expire_effect. intros Hne.
  destruct (ks !! k) as [e|]; intros [= _ <-]; [by rewrite lookup_insert_ne | done].
Qed.

Lemma lpop_effect_others k key ks a ks' :
  k <> key -> lpop_effect k ks = Returned (a, ks') -> ks' !! key = ks !! key.
Proof.
  unfold lpop_effect. intros Hne.
  destruct (ks !! k) as [[[text|items] t]|]; [done| |by intros [= _ <-]].
  destruct items as [|first [|x others]]; intros [= _ <-];
    by rewrite ?lookup_delete_ne, ?lookup_insert_ne.
Qed.

Lemma perform_sent c r :
  issued (snd (perform c r)) = c :: issued r
  /\ faults (snd (perform c r)) = tail (faults r).
Proof.
  destruct c as [k s t|k i|k s|k]; unfold perform;
    match goal with
    | |- context [round_trip ?c ?eff r] =>
        pose proof (round_trip_sent c eff r) as H;
        destruct (round_trip c eff r) as [[a|e] r']; exact H
    end.
Qed.

Lemma perform_others c r key :
  command_key c <> key -> keyspace (snd (perform c r)) !! key = keyspace r !! key.
Proof.
  intros Hne.
  destruct c as [k s t|k i|k s|k]; unfold perform; simpl in Hne;
    match goal with
    | |- context [round_trip ?c ?eff r] =>
        assert (keyspace (snd (round_trip c eff r)) !! key = keyspace r !! key) as H;
        [apply round_trip_others; intros ks a ks'
        |destruct (round_trip c eff r) as [[a|e] r']; exact H]
    end.
  - by apply setex_effect_others.
  - by apply lpush_effect_others.
  - by apply expire_effect_others.
  - by apply lpop_effect_others.
Qed.

Lemma perform_all_others cs r key :
  Forall (fun c => command_key c <> key) cs ->
  keyspace (snd (perform_all cs r)) !! key = keyspace r !! key.
Proof.
  revert r. induction cs as [|c cs IH]; intros r Hcs; [done|].
  apply Forall_cons in Hcs as [Hc Hcs]. simpl.
  pose proof (perform_others c r key Hc) as Hone.
  destruct (perform c r) as [[[]|e] r']; simpl in *.
  - by rewrite IH.
  - done.
Qed.

(** What has been sent is an initial part of the sequence. *)
Lemma perform_all_sent cs r :
  exists m, issued (snd (perform_all cs r)) = (rev (take m cs) ++ issued r)%list.
Proof.
  revert r. induction cs as [|c cs IH]; intros r.
  - by exists 0%nat.
  - simpl. pose proof (perform_sent c r) as [Hone _].
    destruct (perform c r) as [[[]|e] r']; simpl in *.
    + destruct (IH r') as [m Hm]. exists (S m).
      rewrite Hm, Hone. simpl. by rewrite <- app_assoc.
    + exists 1%nat. by rewrite Hone.
Qed.

(** Single commands on a store whose next script entry is known. *)

Lemma perform_lost c ks sent script :
  perform c {| keyspace := ks; issued := sent; faults := true :: script |} =
    (Raised RedisConnectionError,
     {| keyspace := ks; issued := c :: sent; faults := script |}).
Proof. by destruct c. Qed.

Lemma perform_setex_up key seconds text r :
  store_up 1 (faults r) = true ->
  perform (SETEX key seconds text) r =
    (Returned tt,
     {| keyspace := <[key := {| value := RString text; ttl := Some seconds |}]> (keyspace r);
        issued := SETEX key seconds text :: issued r;
        faults := tail (faults r) |}).
Proof. intros Hup. unfold perform. by rewrite round_trip_up. Qed.

Lemma perform_lpush_up key item r :
  store_up 1 (faults r) = true ->
  accepts_list key (keyspace r) = true ->
  perform (LPUSH key item) r =
    (Returned tt,
     {| keyspace := lpushed key item (keyspace r);
        issued := LPUSH key item :: issued r;
        faults := tail (faults r) |}).
Proof.
  intros Hup Hacc. unfold perform.
  by rewrite round_trip_up, lpush_effect_accepted.
Qed.

Lemma perform_all_step c cs r r' :
  perform c r = (Returned tt, r') -> perform_all (c :: cs) r = perform_all cs r'.
Proof. simpl. by intros ->. Qed.

Lemma perform_all_stop c cs r e r' :
  perform c r = (Raised e, r') -> perform_all (c :: cs) r = (Raised e, r').
Proof. simpl. by intros ->. Qed.

(** ** Lanes under a sequence of commands *)

Lemma perform_lpush_returned key item r r' :
  perform (LPUSH key item) r = (Returned tt, r') ->
  list_at key (keyspace r') = item :: list_at key (keyspace r).
Proof.
  unfold perform, round_trip, lpush_effect, list_at.
  destruct (faults r) as [|[] script]; [| discriminate |];
    (destruct (keyspace r !! key) as [[[text|items] t]|]; [discriminate| |]);
    intros [= <-]; simpl; by rewrite lookup_insert_eq.
Qed.

Lemma perform_all_faults_nil cs r :
  faults r = [] -> faults (snd (perform_all cs r)) = [].
Proof.
  revert r. induction cs as [|c cs IH]; intros r Hr; [done|].
  simpl. pose proof (perform_sent c r) as [_ Hf]. rewrite Hr in Hf.
  destruct (perform c r) as [[[]|e] r']; simpl in *; [by apply IH | done].
Qed.

Lemma list_at_accepts key ks : list_at key ks <> [] -> accepts_list key ks = true.
Proof.
  unfold list_at, accepts_list.
  by destruct (ks !! key) as [[[text|items] t]|].
Qed.

(** The commands of a call that all return push the job id on its lane. *)
Lemma call_commands_lane env job_type parameters priority user_id max_retries r :
  fst (perform_all (call_commands env job_type parameters priority user_id
                      max_retries) r) = Returned tt ->
  list_at (priority_queue_key priority)
    (keyspace (snd (perform_all (call_commands env job_type parameters priority
                                   user_id max_retries) r))) =
  new_job_id env :: list_at (priority_queue_key priority) (keyspace r).
Proof.
  unfold call_commands. cbn [app].
  set (rest := if truthy user_id then _ else _).
  assert (Hrest : Forall (fun c => command_key c <> priority_queue_key priority) rest).
  { subst rest. destruct (truthy user_id); repeat constructor;
      simpl; apply not_eq_sym, lane_not_user. }
  cbn [perform_all].
  destruct (perform (SETEX _ _ _) r) as [[[]|e1] r1] eqn:E1; [|discriminate].
  destruct (perform (LPUSH _ _) r1) as [[[]|e2] r2] eqn:E2; [|discriminate].
  intros _. unfold list_at at 1. rewrite perform_all_others by done.
  fold (list_at (priority_queue_key priority) (keyspace r2)).
  rewrite (perform_lpush_returned _ _ _ _ E2). f_equal.
  unfold list_at.
  replace r1 with (snd (perform (SETEX (job_key_of (new_job_id env)) 604800
    (json_dumps (JDict (asdict (job_record env job_type parameters priority user_id
                                  max_retries))))) r)) by (by rewrite E1).
  by rewrite perform_others by apply job_key_not_lane.
Qed.

(** They leave the other lanes alone, whatever happens. *)
Lemma call_commands_other_lane env job_type parameters priority user_id max_retries
    r other :
  other <> priority ->
  keyspace (snd (perform_all (call_commands env job_type parameters priority
                                user_id max_retries) r)) !! priority_queue_key other =
  keyspace r !! priority_queue_key other.
Proof.
  intros Hne. apply perform_all_others.
  unfold call_commands.
  assert (priority_queue_key priority <> priority_queue_key other).
  { intros Heq. by apply priority_queue_key_inj in Heq. }
  destruct (truthy user_id); repeat constructor; simpl;
    done || apply job_key_not_lane || apply not_eq_sym, lane_not_user.
Qed.

(** ** A call whose writes all succeed *)

Section CreateJob.

Variable Celery : Type.
Variable handoff : string -> string -> option PyDict -> Celery -> Outcome unit * Celery.

Lemma on_redis_up {A} (c : Command)
    (effect : gmap string Entry -> Outcome (A * gmap string Entry))
    (w : World Celery) a ks' :
  store_up 1 (faults (redis_client w)) = true ->
  effect (keyspace (redis_client w)) = Returned (a, ks') ->
  on_redis Celery (round_trip c effect) w =
    (Returned a,
     {| redis_client := {| keyspace := ks'; issued := c :: issued (redis_client w);
                           faults := tail (faults (redis_client w)) |};
        celery_app := celery_app w; logger := logger w |}).
Proof.
  intros Hup Heff. unfold on_redis. by rewrite round_trip_up, Heff.
Qed.

Lemma create_job_body_succeeds env job_type parameters priority user_id max_retries
    (w : World Celery) :
  store_takes priority user_id (redis_client w) = true ->
  create_job_body handoff env job_type parameters priority user_id max_retries w =
    let r := {| keyspace := final_keyspace env job_type parameters priority
                               user_id max_retries (keyspace (redis_client w));
                issued := rev (call_commands env job_type parameters priority
                                 user_id max_retries) ++ issued (redis_client w);
                faults := drop (writes_of user_id) (faults (redis_client w)) |} in
    match handoff (new_job_id env) job_type parameters (celery_app w) with
    | (Returned _, c) =>
        (Returned tt,
         {| redis_client := r; celery_app := c;
            logger := created_line env job_type priority :: logger w |})
    | (Raised e, c) =>
        (Raised e, {| redis_client := r; celery_app := c; logger := logger w |})
    end.
Proof.
  unfold store_takes. 
  intros H. apply andb_prop in H as [H Huser]. apply andb_prop in H as [Hup Hlane].
  unfold create_job_body, bind, setex, lpush, expire.
  assert (Htwo : store_up 2 (faults (redis_client w)) = true).
  { eapply store_up_weaken; [|exact Hup]. unfold writes_of. destruct (truthy user_id); lia. }
  erewrite on_redis_up; [|by eapply store_up_head|reflexivity].
  cbn [redis_client keyspace issued faults celery_app logger].
  erewrite on_redis_up; [|by apply store_up_tail|apply lpush_effect_accepted].
  2:{ cbn [redis_client keyspace]. unfold accepts_list.
      rewrite lookup_insert_ne by apply job_key_not_lane. exact Hlane. }
  cbn [redis_client keyspace issued faults celery_app logger].
  fold (job_record env job_type parameters priority user_id max_retries).
  change (timedelta_days 7) with 604800.
  fold (job_entry env job_type parameters priority user_id max_retries).
  fold (queued_keyspace env job_type parameters priority user_id max_retries
          (keyspace (redis_client w))).
  unfold final_keyspace, call_commands, writes_of in *.
  destruct (truthy user_id) eqn:Htruthy.
  - set (user_jobs_key := user_jobs_key_of (default "" user_id)) in *.
    set (queued := queued_keyspace _ _ _ _ _ _ _).
    assert (Hq : accepts_list user_jobs_key queued = true).
    { subst queued. unfold queued_keyspace. apply accepts_list_lpushed.
      unfold accepts_list. rewrite lookup_insert_ne by apply job_key_not_user. exact Huser. }
    erewrite on_redis_up; [| |by apply lpush_effect_accepted].
    2:{ cbn [redis_client faults]. apply (store_up_head 1), store_up_tail, store_up_tail.
        exact Hup. }
    cbn [redis_client keyspace issued faults celery_app logger].
    erewrite on_redis_up.
    2:{ cbn [redis_client faults]. do 3 apply store_up_tail. exact Hup. }
    2:{ cbn [redis_client keyspace]. unfold expire_effect, lpushed.
        rewrite lookup_insert_eq. reflexivity. }
    cbn [redis_client keyspace issued faults celery_app logger value].
    unfold ret, on_celery, logger_info.
    cbn [redis_client keyspace issued faults celery_app logger].
    rewrite insert_insert_eq.
    change (tail (faults (redis_client w))) with (tail (drop 0 (faults (redis_client w)))).
    rewrite !tail_drop. cbn [rev app].
    change (86400 * 30) with 2592000.
    destruct (handoff _ _ _ _) as [[[]|e] c]; reflexivity.
  - unfold ret, on_celery, logger_info.
    cbn [redis_client keyspace issued faults celery_app logger].
    change (tail (faults (redis_client w))) with (tail (drop 0 (faults (redis_client w)))).
    rewrite !tail_drop. 
    destruct (handoff _ _ _ _) as [[[]|e] c]; reflexivity.
Qed.

(** The body is its commands sent in order, then the hand-off, then the
    log line; an exception ends it where it is raised. *)
Lemma create_job_body_replay env job_type parameters priority user_id max_retries
    (w : World Celery) :
  create_job_body handoff env job_type parameters priority user_id max_retries w =
    match perform_all (call_commands env job_type parameters priority
                         user_id max_retries) (redis_client w) with
    | (Returned _, r) =>
        match handoff (new_job_id env) job_type parameters (celery_app w) with
        | (Returned _, c) =>
            (Returned tt,
             {| redis_client := r; celery_app := c;
                logger := created_line env job_type priority :: logger w |})
        | (Raised e, c) =>
            (Raised e, {| redis_client := r; celery_app := c; logger := logger w |})
        end
    | (Raised e, r) =>
        (Raised e, {| redis_client := r; celery_app := celery_app w; logger := logger w |})
    end.
Proof.
  unfold create_job_body, call_commands, job_record, bind, setex, lpush, expire,
    on_redis, on_celery, logger_info, ret, created_line.
  change (timedelta_days 7) with 604800. change (86400 * 30) with 2592000.
  cbn [app perform_all perform].
  destruct (round_trip (SETEX _ _ _) _ _) as [[a1|e1] r1]; [|reflexivity].
  cbn [redis_client celery_app logger].
  destruct (round_trip (LPUSH _ _) _ _) as [[a2|e2] r2]; [|reflexivity].
  cbn [redis_client celery_app logger].
  destruct (truthy user_id).
  - cbn [app perform_all perform].
    destruct (round_trip (LPUSH _ _) _ _) as [[a3|e3] r3]; [|reflexivity].
    cbn [redis_client celery_app logger].
    destruct (round_trip (EXPIRE _ _) _ _) as [[a4|e4] r4]; [|reflexivity].
    cbn [redis_client celery_app logger].
    destruct (handoff _ _ _ _) as [[[]|e] c]; reflexivity.
  - cbn [app perform_all perform redis_client celery_app logger].
    destruct (handoff _ _ _ _) as [[[]|e] c]; reflexivity.
Qed.

(** The keyspace a call leaves does not depend on how the hand-off
    ends. *)
Lemma create_job_final_keyspace env job_type parameters priority user_id max_retries
    (w : World Celery) :
  store_takes priority user_id (redis_client w) = true ->
  keyspace (redis_client
    (snd (create_job handoff env job_type parameters priority user_id max_retries w))) =
  final_keyspace env job_type parameters priority user_id max_retries
    (keyspace (redis_client w)).
Proof.
  intros Hadm. unfold create_job, bind.
  rewrite create_job_body_succeeds by done. cbv zeta.
  by destruct (handoff _ _ _ _) as [[[]|e] c].
Qed.

Lemma final_keyspace_job env job_type parameters priority user_id max_retries ks :
  final_keyspace env job_type parameters priority user_id max_retries ks
    !! job_key_of (new_job_id env) =
  Some (job_entry env job_type parameters priority user_id max_retries).
Proof.
  unfold final_keyspace, queued_keyspace.
  destruct (truthy user_id).
  - rewrite lookup_insert_ne by (apply not_eq_sym, job_key_not_user).
    rewrite lookup_lpushed_ne by (apply not_eq_sym, job_key_not_lane).
    apply lookup_insert_eq.
  - rewrite lookup_lpushed_ne by (apply not_eq_sym, job_key_not_lane).
    apply lookup_insert_eq.
Qed.

Lemma final_keyspace_lane env job_type parameters priority user_id max_retries ks :
  list_at (priority_queue_key priority)
    (final_keyspace env job_type parameters priority user_id max_retries ks) =
  new_job_id env :: list_at (priority_queue_key priority) ks.
Proof.
  unfold final_keyspace, queued_keyspace.
  assert (Hq : forall ks', list_at (priority_queue_key priority)
             (lpushed (priority_queue_key priority) (new_job_id env)
                (<[job_key_of (new_job_id env) :=
                     job_entry env job_type parameters priority user_id max_retries]> ks')) =
           new_job_id env :: list_at (priority_queue_key priority) ks').
  { intros ks'. rewrite list_at_lpushed. f_equal. unfold list_at.
    by rewrite lookup_insert_ne by apply job_key_not_lane. }
  destruct (truthy user_id); [|apply Hq].
  unfold list_at at 1.
  rewrite lookup_insert_ne by (apply not_eq_sym, lane_not_user).
  apply Hq.
Qed.

Lemma final_keyspace_other_lane env job_type parameters priority user_id max_retries
    ks other :
  other <> priority ->
  final_keyspace env job_type parameters priority user_id max_retries ks
    !! priority_queue_key other =
  ks !! priority_queue_key other.
Proof.
  intros Hne. unfold final_keyspace, queued_keyspace.
  assert (Hlanes : priority_queue_key priority <> priority_queue_key other).
  { intros Heq. by apply priority_queue_key_inj in Heq. }
  destruct (truthy user_id).
  - rewrite lookup_insert_ne by (apply not_eq_sym, lane_not_user).
    rewrite lookup_lpushed_ne by done.
    by rewrite lookup_insert_ne by apply job_key_not_lane.
  - rewrite lookup_lpushed_ne by done.
    by rewrite lookup_insert_ne by apply job_key_not_lane.
Qed.

Lemma final_keyspace_user env job_type parameters priority user_id max_retries ks :
  truthy user_id = true ->
  final_keyspace env job_type parameters priority user_id max_retries ks
    !! user_jobs_key_of (default "" user_id) =
  Some {| value := RList (new_job_id env
                            :: list_at (user_jobs_key_of (default "" user_id)) ks);
          ttl := Some 2592000 |}.
Proof.
  intros Htruthy. unfold final_keyspace. rewrite Htruthy.
  rewrite lookup_insert_eq. do 3 f_equal.
  unfold queued_keyspace.
  rewrite list_at_lpushed_ne by apply lane_not_user.
  unfold list_at. by rewrite lookup_insert_ne by apply job_key_not_user.
Qed.

(** ** Claims on a call whose writes succeed *)

(** C1, as the code has it: a call whose writes the store takes and whose
    hand-off returns gives the caller the job id made during the call,
    "job_" followed by the hexadecimal form of a new uuid, whatever the
    job type and for each of the four priority levels.  It is the id
    under which the record has been stored, the id now at the head of the
    lane and the id given to the hand-off. *)
Theorem create_job_returns_job_id env job_type parameters priority user_id max_retries
    (w : World Celery) :
  store_takes priority user_id (redis_client w) = true ->
  fst (handoff (new_job_id env) job_type parameters (celery_app w)) = Returned tt ->
  let res := create_job handoff env job_type parameters priority user_id max_retries w in
  let job_id := "job_" +:+ uuid4_hex env in
  fst res = Returned job_id
  /\ keyspace (redis_client (snd res)) !! ("job:" +:+ job_id) =
       Some (job_entry env job_type parameters priority user_id max_retries)
  /\ list_at (priority_queue_key priority) (keyspace (redis_client (snd res))) =
       job_id :: list_at (priority_queue_key priority) (keyspace (redis_client w))
  /\ celery_app (snd res) =
       snd (handoff job_id job_type parameters (celery_app w)).
Proof.
  intros Htakes Hhand. cbv zeta.
  fold (new_job_id env). fold (job_key_of (new_job_id env)).
  rewrite create_job_final_keyspace by done.
  unfold create_job, bind.
  rewrite create_job_body_succeeds by done. cbv zeta.
  destruct (handoff _ _ _ _) as [[[]|e] c]; [|discriminate].
  cbn [fst snd celery_app ret].
  split; [done|]. split; [apply final_keyspace_job|].
  split; [apply final_keyspace_lane|done].
Qed.

(** C3, as the code has it: nothing is validated.  A call with an empty
    job type or a negative retry bound is accepted like any other: it
    returns the job id, the record is stored with that job type and that
    bound, and the job id is pushed on the lane. *)
Theorem create_job_validates_nothing env job_type parameters priority user_id max_retries
    (w : World Celery) :
  job_type = "" \/ max_retries < 0 ->
  store_takes priority user_id (redis_client w) = true ->
  fst (handoff (new_job_id env) job_type parameters (celery_app w)) = Returned tt ->
  let w' := snd (create_job handoff env job_type parameters priority user_id max_retries w) in
  fst (create_job handoff env job_type parameters priority user_id max_retries w) =
    Returned (new_job_id env)
  /\ keyspace (redis_client w') !! job_key_of (new_job_id env) =
       Some (job_entry env job_type parameters priority user_id max_retries)
  /\ list_at (priority_queue_key priority) (keyspace (redis_client w')) =
       new_job_id env :: list_at (priority_queue_key priority) (keyspace (redis_client w)).
Proof.
  intros _ Hadm Hhand w'. subst w'.
  rewrite create_job_final_keyspace by done.
  split; [|split].
  - unfold create_job, bind. rewrite create_job_body_succeeds by done. cbv zeta.
    destruct (handoff _ _ _ _) as [[[]|e] c]; simpl in *; [done | discriminate].
  - apply final_keyspace_job.
  - apply final_keyspace_lane.
Qed.

(** C5, as the code has it: the job id is pushed at the head of the list
    of the lane keyed by the numeric value of the priority (LPUSH: it
    becomes the first element and the entries already there follow in
    their order), and the key of every other lane is left as it was. *)
Theorem create_job_pushes_on_lane env job_type parameters priority user_id max_retries
    (w : World Celery) :
  store_takes priority user_id (redis_client w) = true ->
  let w' := snd (create_job handoff env job_type parameters priority user_id max_retries w) in
  priority_queue_key priority =
    match priority with
    | JobPriority.LOW => "queue:priority:1"
    | JobPriority.NORMAL => "queue:priority:5"
    | JobPriority.HIGH => "queue:priority:8"
    | JobPriority.URGENT => "queue:priority:10"
    end
  /\ list_at (priority_queue_key priority) (keyspace (redis_client w')) =
       new_job_id env :: list_at (priority_queue_key priority) (keyspace (redis_client w))
  /\ forall other, other <> priority ->
       keyspace (redis_client w') !! priority_queue_key other =
       keyspace (redis_client w) !! priority_queue_key other.
Proof.
  intros Hadm w'. subst w'.
  rewrite create_job_final_keyspace by done.
  split; [by destruct priority|split].
  - apply final_keyspace_lane.
  - intros other Hne. by apply final_keyspace_other_lane.
Qed.

(** C6, as the code has it: when the writes succeed and the hand-off
    raises, the record and the lane entry stay in place, nothing is
    logged, and the exception of the hand-off reaches the caller in place
    of the job id. *)
Theorem create_job_handoff_error_propagates env job_type parameters priority user_id
    max_retries (w : World Celery) e :
  store_takes priority user_id (redis_client w) = true ->
  fst (handoff (new_job_id env) job_type parameters (celery_app w)) = Raised e ->
  let w' := snd (create_job handoff env job_type parameters priority user_id max_retries w) in
  fst (create_job handoff env job_type parameters priority user_id max_retries w) = Raised e
  /\ keyspace (redis_client w') !! job_key_of (new_job_id env) =
       Some (job_entry env job_type parameters priority user_id max_retries)
  /\ list_at (priority_queue_key priority) (keyspace (redis_client w')) =
       new_job_id env :: list_at (priority_queue_key priority) (keyspace (redis_client w))
  /\ logger w' = logger w.
Proof.
  intros Hadm Hhand w'. subst w'.
  rewrite create_job_final_keyspace by done.
  split; [|split; [|split]].
  - unfold create_job, bind. rewrite create_job_body_succeeds by done. cbv zeta.
    destruct (handoff _ _ _ _) as [[[]|e'] c]; simpl in *; [discriminate | congruence].
  - apply final_keyspace_job.
  - apply final_keyspace_lane.
  - unfold create_job, bind. rewrite create_job_body_succeeds by done. cbv zeta.
    destruct (handoff _ _ _ _) as [[[]|e'] c]; simpl in *; [discriminate | done].
Qed.

(** C8, as the code has it: for a user id that is present and not the
    empty string, the job id is pushed at the head of the list under
    user_jobs:<user_id>, and the expiry of that key is set to 30 days
    whatever it was before. *)
Theorem create_job_indexes_user env job_type parameters priority u max_retries
    (w : World Celery) :
  u <> "" ->
  store_takes priority (Some u) (redis_client w) = true ->
  let w' := snd (create_job handoff env job_type parameters priority (Some u) max_retries w) in
  list_at ("user_jobs:" +:+ u) (keyspace (redis_client w')) =
    new_job_id env :: list_at ("user_jobs:" +:+ u) (keyspace (redis_client w))
  /\ ttl_at ("user_jobs:" +:+ u) (keyspace (redis_client w')) = Some (30 * 86400).
Proof.
  intros Hu Hadm w'. subst w'.
  rewrite create_job_final_keyspace by done.
  assert (Htruthy : truthy (Some u) = true) by (by destruct u).
  pose proof (final_keyspace_user env job_type parameters priority (Some u)
                max_retries (keyspace (redis_client w)) Htruthy) as Hlook.
  simpl in Hlook. unfold user_jobs_key_of in Hlook.
  unfold list_at at 1, ttl_at. by rewrite Hlook.
Qed.

(** ** Claims that hold whatever fails later *)

(** The store a call leaves is the one its commands leave: the hand-off
    and the logger do not touch it. *)
Lemma create_job_redis env job_type parameters priority user_id max_retries
    (w : World Celery) :
  redis_client (snd (create_job handoff env job_type parameters priority user_id
                       max_retries w)) =
  snd (perform_all (call_commands env job_type parameters priority user_id
                      max_retries) (redis_client w)).
Proof.
  unfold create_job, bind. rewrite create_job_body_replay.
  destruct (perform_all _ _) as [[[]|e] r]; [|done].
  by destruct (handoff _ _ _ _) as [[[]|e] c].
Qed.

(** Once the SETEX has reached the server the record is there to stay:
    no later command of the call is on its key. *)
Lemma create_job_record_stored env job_type parameters priority user_id max_retries
    (w : World Celery) :
  store_up 1 (faults (redis_client w)) = true ->
  keyspace (redis_client (snd (create_job handoff env job_type parameters priority
                                 user_id max_retries w)))
    !! job_key_of (new_job_id env) =
  Some (job_entry env job_type parameters priority user_id max_retries).
Proof.
  intros Hup. rewrite create_job_redis.
  unfold call_commands. cbn [app].
  erewrite perform_all_step by (by apply perform_setex_up).
  rewrite perform_all_others.
  - cbn [keyspace]. apply lookup_insert_eq.
  - apply Forall_cons. split; [apply not_eq_sym, job_key_not_lane|].
    destruct (truthy user_id); [|constructor].
    repeat (apply Forall_cons; split; [apply not_eq_sym, job_key_not_user|]).
    constructor.
Qed.

(** C7: when the record's write reaches the store, the key job:<job_id>
    holds, with an expiry of 7 days, the serialisation of a record whose
    status is PENDING, whose [created_at] is the time read during the
    call, whose progress and retry count are 0, whose job type, priority,
    retry bound and user are the caller's, and whose [started_at],
    [completed_at], [result] and [error_message] are unset. *)
Theorem create_job_persists_record env a_job_type a_parameters a_priority a_user_id a_max_retries
    (w : World Celery) :
  store_up 1 (faults (redis_client w)) = true ->
  exists info,
    keyspace (redis_client (snd (create_job handoff env a_job_type a_parameters a_priority
                                   a_user_id a_max_retries w)))
      !! ("job:" +:+ new_job_id env) =
      Some {| value := RString (json_dumps (JDict (asdict info)));
              ttl := Some (7 * 86400) |}
    /\ job_id info = new_job_id env
    /\ status info = JobStatus.value JobStatus.PENDING
    /\ created_at info = utcnow_isoformat env
    /\ progress info = 0
    /\ retry_count info = 0
    /\ job_type info = a_job_type
    /\ priority info = JobPriority.value a_priority
    /\ max_retries info = a_max_retries
    /\ user_id info = a_user_id
    /\ started_at info = None
    /\ completed_at info = None
    /\ result info = None
    /\ error_message info = None.
Proof.
  intros Hup.
  exists (job_record env a_job_type a_parameters a_priority a_user_id a_max_retries).
  split; [by apply create_job_record_stored|].
  repeat split.
Qed.

(** C9: when the caller passes no parameters, or an empty dict, the
    stored record has the empty mapping in its [parameters] field, not
    null. *)
Theorem create_job_parameters_never_null env job_type parameters priority user_id
    max_retries (w : World Celery) :
  parameters = None \/ parameters = Some [] ->
  store_up 1 (faults (redis_client w)) = true ->
  exists doc,
    stored_document (job_key_of (new_job_id env))
      (keyspace (redis_client (snd (create_job handoff env job_type parameters priority
                                      user_id max_retries w)))) = Some doc
    /\ json_get "parameters" doc = Some (JDict []).
Proof.
  intros Hpar Hup.
  exists (JDict (asdict (job_record env job_type parameters priority user_id max_retries))).
  unfold stored_document. rewrite create_job_record_stored by done.
  split; [done|].
  by destruct Hpar as [-> | ->].
Qed.

(** C10: a call without a user sends no command on a key that starts
    with "user_jobs:", and leaves every such key as it was: value and
    expiry.  This holds whatever the store and the hand-off do. *)
Theorem create_job_without_user_leaves_index env job_type parameters priority max_retries
    (w : World Celery) :
  (exists sent,
     issued (redis_client (snd (create_job handoff env job_type parameters priority
                                  None max_retries w))) =
       (sent ++ issued (redis_client w))%list
     /\ Forall (fun c => String.prefix "user_jobs:" (command_key c) = false) sent)
  /\ forall key, String.prefix "user_jobs:" key = true ->
       keyspace (redis_client (snd (create_job handoff env job_type parameters priority
                                      None max_retries w))) !! key =
       keyspace (redis_client w) !! key.
Proof.
  rewrite create_job_redis.
  set (commands := call_commands env job_type parameters priority None max_retries).
  assert (Hkeys : Forall (fun c => String.prefix "user_jobs:" (command_key c) = false)
                    commands).
  { subst commands. unfold call_commands. simpl. repeat constructor. }
  split.
  - destruct (perform_all_sent commands (redis_client w)) as [m Hm].
    exists (rev (take m commands)). split; [done|].
    apply Forall_rev, Forall_take, Hkeys.
  - intros key Hkey. apply perform_all_others.
    eapply Forall_impl; [exact Hkeys|].
    intros c Hc Heq. simpl in Hc. rewrite Heq, Hkey in Hc. discriminate.
Qed.

(** ** A write that fails *)

(** C2, as the code has it: the writes are sent one by one, with nothing
    to undo them.  When the connection is lost at the write of rank [k]
    (the first has rank 0), the call raises the error of the store, makes
    no hand-off and logs nothing, and the keyspace holds the first [k]
    writes and nothing else: it is untouched when the record's write is
    the one that fails, and keeps the record, then the lane entry, then
    the index entry, when a later one does. *)
Theorem create_job_store_failure env job_type parameters priority user_id max_retries
    (w : World Celery) k rest :
  faults (redis_client w) = (replicate k false ++ true :: rest)%list ->
  (k < writes_of user_id)%nat ->
  accepts_list (priority_queue_key priority) (keyspace (redis_client w)) = true ->
  (if truthy user_id
   then accepts_list (user_jobs_key_of (default "" user_id)) (keyspace (redis_client w))
   else true) = true ->
  create_job handoff env job_type parameters priority user_id max_retries w =
    (Raised RedisConnectionError,
     {| redis_client :=
          {| keyspace := written k env job_type parameters priority user_id max_retries
                           (keyspace (redis_client w));
             issued := (rev (take (S k) (call_commands env job_type parameters
                                           priority user_id max_retries))
                        ++ issued (redis_client w))%list;
             faults := rest |};
        celery_app := celery_app w;
        logger := logger w |}).
Proof.
  destruct w as [[ks sent script] c lg]. cbn [redis_client keyspace issued faults
    celery_app logger].
  intros -> Hk Hlane Huser.
  unfold create_job, bind. rewrite create_job_body_replay.
  cbn [redis_client celery_app logger].
  unfold call_commands, writes_of in *. cbn [app].
  assert (Hlane' : forall e, accepts_list (priority_queue_key priority)
                     (<[job_key_of (new_job_id env) := e]> ks) = true).
  { intros e. unfold accepts_list.
    by rewrite lookup_insert_ne by apply job_key_not_lane. }
  destruct k as [|[|k]].
  - erewrite perform_all_stop by apply perform_lost. done.
  - erewrite perform_all_step by (by apply perform_setex_up).
    cbn [keyspace issued faults tail replicate app].
    erewrite perform_all_stop by apply perform_lost. done.
  - destruct (truthy user_id) eqn:Htruthy; [|lia].
    erewrite perform_all_step by (by apply perform_setex_up).
    cbn [keyspace issued faults tail replicate app].
    erewrite perform_all_step by (apply perform_lpush_up; [done | apply Hlane']).
    cbn [keyspace issued faults tail replicate app].
    fold (job_entry env job_type parameters priority user_id max_retries).
    fold (queued_keyspace env job_type parameters priority user_id max_retries ks).
    destruct k as [|[|k]]; [| |lia].
    + erewrite perform_all_stop by apply perform_lost.
      unfold written. done.
    + erewrite perform_all_step.
      2:{ apply perform_lpush_up; [done|]. cbn [keyspace].
          unfold queued_keyspace. apply accepts_list_lpushed.
          unfold accepts_list.
          by rewrite lookup_insert_ne by apply job_key_not_user. }
      cbn [keyspace issued faults tail replicate app].
      erewrite perform_all_stop by apply perform_lost.
      unfold written. rewrite Htruthy. done.
Qed.

(** ** The order of a lane *)

Lemma create_job_returned env job_type parameters priority user_id max_retries
    (w : World Celery) j :
  fst (create_job handoff env job_type parameters priority user_id max_retries w) =
    Returned j ->
  j = new_job_id env
  /\ fst (perform_all (call_commands env job_type parameters priority user_id
                         max_retries) (redis_client w)) = Returned tt.
Proof.
  unfold create_job, bind. rewrite create_job_body_replay.
  destruct (perform_all _ _) as [[[]|e] r]; [|discriminate].
  destruct (handoff _ _ _ _) as [[[]|e] c]; [|discriminate].
  simpl. by intros [= <-].
Qed.

(** One admission seen from a lane: the job id at the head when it is the
    lane of the request, no change otherwise. *)
Lemma submit_lane q (w : World Celery) j p :
  fst (submit handoff q w) = Returned j ->
  list_at (priority_queue_key p) (keyspace (redis_client (snd (submit handoff q w)))) =
    (lane_ids p [q] ++ list_at (priority_queue_key p) (keyspace (redis_client w)))%list.
Proof.
  unfold submit. intros Hret. apply create_job_returned in Hret as [_ Hret].
  rewrite create_job_redis. unfold lane_ids.
  rewrite filter_cons, filter_nil.
  destruct (decide (req_priority q = p)) as [<-|Hne].
  - cbn [map app]. by apply call_commands_lane.
  - cbn [map app]. unfold list_at.
    by rewrite call_commands_other_lane by done.
Qed.

Lemma submit_faults_nil q (w : World Celery) :
  faults (redis_client w) = [] ->
  faults (redis_client (snd (submit handoff q w))) = [].
Proof.
  intros Hnil. unfold submit. rewrite create_job_redis.
  by apply perform_all_faults_nil.
Qed.

Lemma submit_all_cons q qs (w : World Celery) :
  submit_all handoff (q :: qs) w =
    match submit handoff q w with
    | (Returned j, w1) =>
        match submit_all handoff qs w1 with
        | (Returned later, w2) => (Returned (j :: later), w2)
        | (Raised e, w2) => (Raised e, w2)
        end
    | (Raised e, w1) => (Raised e, w1)
    end.
Proof. reflexivity. Qed.

(** After a sequence of submissions a lane holds the ids queued on it,
    the latest first, before what it held. *)
Lemma submit_all_lane qs (w : World Celery) ids p :
  fst (submit_all handoff qs w) = Returned ids ->
  list_at (priority_queue_key p)
    (keyspace (redis_client (snd (submit_all handoff qs w)))) =
    (rev (lane_ids p qs) ++ list_at (priority_queue_key p) (keyspace (redis_client w)))%list.
Proof.
  revert w ids. induction qs as [|q qs IH]; intros w ids; [done|].
  rewrite !submit_all_cons.
  pose proof (submit_lane q w) as Hone.
  destruct (submit handoff q w) as [[j|e] w1]; [|discriminate].
  specialize (Hone j p eq_refl). cbn [snd] in Hone.
  specialize (IH w1).
  destruct (submit_all handoff qs w1) as [[later|e] w2]; [|discriminate].
  specialize (IH later eq_refl). cbn [snd] in IH.
  intros _. cbn [snd].
  rewrite IH, Hone. unfold lane_ids.
  rewrite (filter_cons _ q qs), (filter_cons _ q []), filter_nil.
  destruct (decide (req_priority q = p)); simpl; [|done].
  by rewrite <- app_assoc.
Qed.

Lemma submit_all_faults_nil qs (w : World Celery) :
  faults (redis_client w) = [] ->
  faults (redis_client (snd (submit_all handoff qs w))) = [].
Proof.
  revert w. induction qs as [|q qs IH]; intros w Hnil; [done|].
  rewrite submit_all_cons.
  pose proof (submit_faults_nil q w Hnil) as Hone.
  destruct (submit handoff q w) as [[j|e] w1]; [|done].
  cbn [snd] in Hone.
  specialize (IH w1 Hone).
  by destruct (submit_all handoff qs w1) as [[later|e] w2].
Qed.

(** A lane that holds a list, drained on a store that is up, gives its
    elements from the first to the last. *)
Lemma dispatch_drain_serves n p (w : World Celery) :
  faults (redis_client w) = [] ->
  accepts_list (priority_queue_key p) (keyspace (redis_client w)) = true ->
  (length (list_at (priority_queue_key p) (keyspace (redis_client w))) <= n)%nat ->
  fst (dispatch_drain n p w) =
    Returned (list_at (priority_queue_key p) (keyspace (redis_client w))).
Proof.
  revert w. induction n as [|n IH]; intros [[ks sent script] c lg];
    cbn [redis_client keyspace faults]; intros -> Hacc Hlen.
  - destruct (list_at _ ks); [done | simpl in Hlen; lia].
  - cbn [dispatch_drain]. unfold bind at 1, dispatch_pull, lpop, on_redis, round_trip.
    cbn [redis_client keyspace issued faults celery_app logger tail].
    unfold lpop_effect, list_at, accepts_list in *.
    destruct (ks !! priority_queue_key p) as [[[text|items] t]|] eqn:Hlook;
      [discriminate| |done].
    destruct items as [|first others]; [done|].
    unfold bind at 1.
    destruct others as [|x others];
      match goal with
      | |- context [dispatch_drain n p ?w1] => specialize (IH w1); set (served := w1) in *
      end;
      subst served; cbn [redis_client keyspace faults] in IH.
    + rewrite lookup_delete_eq in IH. specialize (IH eq_refl eq_refl ltac:(simpl; lia)).
      destruct (dispatch_drain n p _) as [[later|e] w2]; simpl in IH; [|done].
      by injection IH as ->.
    + rewrite lookup_insert_eq in IH. cbn [value] in IH.
      assert (Hle : (length (x :: others) <= n)%nat) by (simpl in *; lia).
      specialize (IH eq_refl eq_refl Hle).
      destruct (dispatch_drain n p _) as [[later|e] w2]; simpl in IH; [|done].
      by injection IH as ->.
Qed.

(** C4, as the code has it: a lane is served last in, first out.  The
    Dispatcher's pull takes the head of the lane's list, and [create_job]
    pushes at the head.  After a sequence of calls that return, a lane
    drained on a store that stays up gives the jobs queued on it from the
    latest to the earliest, then those it held before: when job A is
    queued before job B on the same lane, B is pulled before A. *)
Theorem lane_served_newest_first before a between b after (w : World Celery) ids :
  req_priority a = req_priority b ->
  faults (redis_client w) = [] ->
  fst (submit_all handoff (before ++ a :: between ++ b :: after) w) = Returned ids ->
  let qs := (before ++ a :: between ++ b :: after)%list in
  let lane := priority_queue_key (req_priority a) in
  let w' := snd (submit_all handoff qs w) in
  fst (dispatch_drain (length (list_at lane (keyspace (redis_client w'))))
         (req_priority a) w') =
    Returned (rev (lane_ids (req_priority a) qs)
              ++ list_at lane (keyspace (redis_client w)))%list
  /\ exists s1 s2 s3,
       fst (dispatch_drain (length (list_at lane (keyspace (redis_client w'))))
              (req_priority a) w') =
       Returned (s1 ++ new_job_id (req_env b) :: s2 ++ new_job_id (req_env a) :: s3)%list.
Proof.
  intros Hsame Hnil Hret. cbv zeta.
  set (p := req_priority a) in *.
  set (qs := (before ++ a :: between ++ b :: after)%list) in *.
  pose proof (submit_all_lane qs w ids p Hret) as Hlane.
  assert (Hids : lane_ids p qs =
            (lane_ids p before ++ new_job_id (req_env a)
               :: lane_ids p between ++ new_job_id (req_env b) :: lane_ids p after)%list).
  { subst qs. unfold lane_ids.
    rewrite filter_app, filter_cons, decide_True by done.
    rewrite filter_app, filter_cons, decide_True by done.
    by rewrite map_app, map_cons, map_app, map_cons. }
  rewrite dispatch_drain_serves.
  - rewrite Hlane. split; [done|]. rewrite Hids.
    exists (rev (lane_ids p after)), (rev (lane_ids p between)),
      (rev (lane_ids p before)
         ++ list_at (priority_queue_key p) (keyspace (redis_client w)))%list.
    rewrite rev_app_distr. cbn [rev]. rewrite rev_app_distr. cbn [rev].
    by rewrite <- !app_assoc.
  - by apply submit_all_faults_nil.
  - apply list_at_accepts. rewrite Hlane, Hids.
    rewrite rev_app_distr. cbn [rev]. rewrite <- !app_assoc.
    intros Hempty. apply app_eq_nil in Hempty as [Hempty _].
    rewrite rev_app_distr in Hempty. cbn [rev] in Hempty.
    rewrite <- !app_assoc in Hempty.
    apply app_eq_nil in Hempty as [_ Hempty]. discriminate.
  - done.
Qed.

End CreateJob.

(** * Further properties of [create_job] *)

(** ** Single commands, whatever their outcome *)

Lemma perform_setex_returned key seconds text r r' :
  perform (SETEX key seconds text) r = (Returned tt, r') ->
  keyspace r' = <[key := {| value := RString text; ttl := Some seconds |}]> (keyspace r).
Proof.
  unfold perform, round_trip, setex_effect.
  destruct (faults r) as [|[] script]; [| discriminate |]; by intros [= <-].
Qed.

Lemma perform_lpush_ttl key item r k :
  ttl_at k (keyspace (snd (perform (LPUSH key item) r))) = ttl_at k (keyspace r).
Proof.
  destruct (decide (key = k)) as [->|Hne].
  - unfold perform, round_trip, lpush_effect, ttl_at.
    destruct (faults r) as [|[] script]; [| done |];
      (destruct (keyspace r !! k) as [[[text|items] t]|] eqn:Hk; simpl;
       rewrite ?lookup_insert_eq, ?Hk; done).
  - unfold ttl_at. by rewrite perform_others.
Qed.

Lemma perform_expire_list key seconds r k :
  list_at k (keyspace (snd (perform (EXPIRE key seconds) r))) = list_at k (keyspace r).
Proof.
  destruct (decide (key = k)) as [->|Hne].
  - unfold perform, round_trip, expire_effect, list_at.
    destruct (faults r) as [|[] script]; [| done |];
      (destruct (keyspace r !! k) as [[v t]|] eqn:Hk; simpl;
       rewrite ?lookup_insert_eq, ?Hk; done).
  - unfold list_at. by rewrite perform_others.
Qed.

(** Pushes on a key and commands on other keys leave its expiry alone. *)
Lemma perform_all_ttl cs r key :
  Forall (fun c => command_key c <> key \/ exists item, c = LPUSH key item) cs ->
  ttl_at key (keyspace (snd (perform_all cs r))) = ttl_at key (keyspace r).
Proof.
  revert r. induction cs as [|c cs IH]; intros r Hcs; [done|].
  apply Forall_cons in Hcs as [Hc Hcs]. simpl.
  assert (Hone : ttl_at key (keyspace (snd (perform c r))) = ttl_at key (keyspace r)).
  { destruct Hc as [Hne | [item ->]].
    - unfold ttl_at. by rewrite perform_others.
    - apply perform_lpush_ttl. }
  destruct (perform c r) as [[[]|e] r']; simpl in *; [|done].
  by rewrite IH.
Qed.

Lemma user_jobs_key_of_inj u u' : user_jobs_key_of u = user_jobs_key_of u' -> u = u'.
Proof. unfold user_jobs_key_of. simpl. intros Heq. by simplify_eq. Qed.

Lemma job_key_of_inj j j' : job_key_of j = job_key_of j' -> j = j'.
Proof. unfold job_key_of. simpl. intros Heq. by simplify_eq. Qed.

(** The keys of the commands of a call. *)
Lemma call_commands_keys env job_type parameters priority user_id max_retries key :
  key <> job_key_of (new_job_id env) ->
  key <> priority_queue_key priority ->
  (truthy user_id = true -> key <> user_jobs_key_of (default "" user_id)) ->
  Forall (fun c => command_key c <> key)
    (call_commands env job_type parameters priority user_id max_retries).
Proof.
  intros Hjob Hlane Huser. unfold call_commands.
  destruct (truthy user_id); repeat constructor; simpl; try done;
    apply not_eq_sym; by apply Huser.
Qed.

(** The commands of a call that all return leave the record in place. *)
Lemma call_commands_record env job_type parameters priority user_id max_retries r :
  fst (perform_all (call_commands env job_type parameters priority user_id
                      max_retries) r) = Returned tt ->
  keyspace (snd (perform_all (call_commands env job_type parameters priority user_id
                                max_retries) r)) !! job_key_of (new_job_id env) =
  Some (job_entry env job_type parameters priority user_id max_retries).
Proof.
  unfold call_commands. cbn [app].
  set (rest := (LPUSH _ _ :: _)).
  assert (Hrest : Forall (fun c => command_key c <> job_key_of (new_job_id env)) rest).
  { subst rest. destruct (truthy user_id); repeat constructor; simpl;
      (apply not_eq_sym, job_key_not_lane) || (apply not_eq_sym, job_key_not_user). }
  destruct (perform (SETEX (job_key_of (new_job_id env)) 604800
              (json_dumps (JDict (asdict (job_record env job_type parameters priority
                                            user_id max_retries))))) r)
    as [[[]|e1] r1] eqn:E1.
  - rewrite (perform_all_step _ _ _ _ E1). intros _.
    rewrite perform_all_others by done.
    rewrite (perform_setex_returned _ _ _ _ _ E1). apply lookup_insert_eq.
  - by rewrite (perform_all_stop _ _ _ _ _ E1).
Qed.

(** The commands of a call that all return push the job id on the index
    of the user of the call, and leave the index of every other user. *)
Lemma call_commands_user_index env job_type parameters priority user_id max_retries r u :
  u <> "" ->
  fst (perform_all (call_commands env job_type parameters priority user_id
                      max_retries) r) = Returned tt ->
  list_at (user_jobs_key_of u)
    (keyspace (snd (perform_all (call_commands env job_type parameters priority user_id
                                   max_retries) r))) =
  if decide (user_id = Some u)
  then new_job_id env :: list_at (user_jobs_key_of u) (keyspace r)
  else list_at (user_jobs_key_of u) (keyspace r).
Proof.
  intros Hu. destruct (decide (user_id = Some u)) as [->|Hne].
  - unfold call_commands.
    assert (Htruthy : truthy (Some u) = true) by (by destruct u).
    rewrite Htruthy. cbn [app default].
    destruct (perform (SETEX (job_key_of (new_job_id env)) 604800
                (json_dumps (JDict (asdict (job_record env job_type parameters priority
                                              (Some u) max_retries))))) r)
      as [[[]|e1] r1] eqn:E1;
      [rewrite (perform_all_step _ _ _ _ E1) | by rewrite (perform_all_stop _ _ _ _ _ E1)].
    destruct (perform (LPUSH (priority_queue_key priority) (new_job_id env)) r1)
      as [[[]|e2] r2] eqn:E2;
      [rewrite (perform_all_step _ _ _ _ E2) | by rewrite (perform_all_stop _ _ _ _ _ E2)].
    destruct (perform (LPUSH (user_jobs_key_of u) (new_job_id env)) r2)
      as [[[]|e3] r3] eqn:E3;
      [rewrite (perform_all_step _ _ _ _ E3) | by rewrite (perform_all_stop _ _ _ _ _ E3)].
    intros _.
    assert (Hlast : forall c, (perform_all [c] r3).2 = (perform c r3).2).
    { intros c. simpl. by destruct (perform c r3) as [[[]|e] r4]. }
    rewrite Hlast, perform_expire_list.
    rewrite (perform_lpush_returned _ _ _ _ E3). f_equal.
    unfold list_at.
    replace r2 with (snd (perform (LPUSH (priority_queue_key priority) (new_job_id env)) r1))
      by (by rewrite E2).
    rewrite perform_others by apply lane_not_user.
    replace r1 with (snd (perform (SETEX (job_key_of (new_job_id env)) 604800
      (json_dumps (JDict (asdict (job_record env job_type parameters priority (Some u)
                                    max_retries))))) r)) by (by rewrite E1).
    by rewrite perform_others by apply job_key_not_user.
  - intros _. unfold list_at. rewrite perform_all_others; [done|].
    apply call_commands_keys.
    + apply not_eq_sym, job_key_not_user.
    + apply not_eq_sym, lane_not_user.
    + intros Htruthy Heq. apply user_jobs_key_of_inj in Heq.
      destruct user_id as [u'|]; [|done]. simpl in Heq. by subst.
Qed.

Section CreateJobFurther.

Variable Celery : Type.
Variable handoff : string -> string -> option PyDict -> Celery -> Outcome unit * Celery.

(** X1: a call changes at most three keys: the key of its record, the key
    of its lane and, for a user, the key of the user's index.  Every other
    key keeps its value and its expiry, whatever fails during the call. *)
Theorem create_job_leaves_other_keys env job_type parameters priority user_id max_retries
    (w : World Celery) key :
  key <> job_key_of (new_job_id env) ->
  key <> priority_queue_key priority ->
  (truthy user_id = true -> key <> user_jobs_key_of (default "" user_id)) ->
  keyspace (redis_client (snd (create_job handoff env job_type parameters priority
                                 user_id max_retries w))) !! key =
  keyspace (redis_client w) !! key.
Proof.
  intros Hjob Hlane Huser. rewrite create_job_redis.
  apply perform_all_others. by apply call_commands_keys.
Qed.

(** X2: a call never gives the key of the lane an expiry and never changes
    the one it has: a lane created by the call has none. *)
Theorem create_job_keeps_lane_expiry env job_type parameters priority user_id max_retries
    (w : World Celery) :
  ttl_at (priority_queue_key priority)
    (keyspace (redis_client (snd (create_job handoff env job_type parameters priority
                                    user_id max_retries w)))) =
  ttl_at (priority_queue_key priority) (keyspace (redis_client w)).
Proof.
  rewrite create_job_redis. apply perform_all_ttl.
  unfold call_commands. apply Forall_app. split.
  - apply Forall_cons. split; [left; apply job_key_not_lane|].
    apply Forall_cons. split; [right; by eexists|]. apply Forall_nil_2.
  - destruct (truthy user_id); [|apply Forall_nil_2].
    apply Forall_cons. split; [left; apply not_eq_sym, lane_not_user|].
    apply Forall_cons. split; [left; apply not_eq_sym, lane_not_user|].
    apply Forall_nil_2.
Qed.

(** X3: the hand-off comes after the writes and is made once.  When a
    write of the call raises, no hand-off is made and nothing is logged;
    when the store takes the writes, the hand-off is made once, with the
    job id, the job type and the parameters as the caller passed them
    ([None] is not replaced by the empty dict of the record), and one
    line is logged when it returns, which names the priority by its name,
    none when it raises. *)
Theorem create_job_hands_off_once env job_type parameters priority user_id max_retries
    (w : World Celery) :
  let res := create_job handoff env job_type parameters priority user_id max_retries w in
  let sent := handoff (new_job_id env) job_type parameters (celery_app w) in
  (forall e,
     fst (perform_all (call_commands env job_type parameters priority user_id max_retries)
            (redis_client w)) = Raised e ->
     fst res = Raised e /\ celery_app (snd res) = celery_app w
     /\ logger (snd res) = logger w)
  /\ (store_takes priority user_id (redis_client w) = true ->
      celery_app (snd res) = snd sent
      /\ (fst sent = Returned tt ->
          logger (snd res) =
            ("Created job " +:+ new_job_id env +:+ " of type " +:+ job_type
             +:+ " with priority " +:+ JobPriority.name priority) :: logger w)
      /\ (forall e, fst sent = Raised e -> logger (snd res) = logger w)).
Proof.
  cbv zeta. split.
  - intros e Hwrite. unfold create_job, bind. rewrite create_job_body_replay.
    destruct (perform_all _ _) as [[[]|e'] r]; [discriminate|].
    cbn [fst] in Hwrite. injection Hwrite as ->. done.
  - intros Htakes. unfold create_job, bind.
    rewrite create_job_body_succeeds by done. cbv zeta.
    destruct (handoff _ _ _ _) as [[[]|e] c]; cbn [fst snd celery_app logger ret];
      (split; [done|]); split; done.
Qed.

(** X4: the lane never receives a job whose record was not written first:
    if a call changes the list of its lane, whatever happens later in the
    call, the record is in the store when the call ends. *)
Theorem create_job_record_before_lane env job_type parameters priority user_id max_retries
    (w : World Celery) :
  list_at (priority_queue_key priority)
    (keyspace (redis_client (snd (create_job handoff env job_type parameters priority
                                    user_id max_retries w)))) <>
  list_at (priority_queue_key priority) (keyspace (redis_client w)) ->
  keyspace (redis_client (snd (create_job handoff env job_type parameters priority
                                 user_id max_retries w))) !! job_key_of (new_job_id env) =
  Some (job_entry env job_type parameters priority user_id max_retries).
Proof.
  rewrite create_job_redis. unfold call_commands. cbn [app].
  set (rest := (LPUSH _ _ :: _)).
  assert (Hrest : Forall (fun c => command_key c <> job_key_of (new_job_id env)) rest).
  { subst rest. destruct (truthy user_id); repeat constructor; simpl;
      (apply not_eq_sym, job_key_not_lane) || (apply not_eq_sym, job_key_not_user). }
  destruct (perform (SETEX (job_key_of (new_job_id env)) 604800
              (json_dumps (JDict (asdict (job_record env job_type parameters priority
                                            user_id max_retries))))) (redis_client w))
    as [[[]|e1] r1] eqn:E1.
  - rewrite (perform_all_step _ _ _ _ E1). intros _.
    rewrite perform_all_others by done.
    rewrite (perform_setex_returned _ _ _ _ _ E1). apply lookup_insert_eq.
  - rewrite (perform_all_stop _ _ _ _ _ E1). cbn [snd]. intros Hchanged.
    exfalso. apply Hchanged. unfold list_at.
    replace r1 with (snd (perform (SETEX (job_key_of (new_job_id env)) 604800
      (json_dumps (JDict (asdict (job_record env job_type parameters priority user_id
                                    max_retries))))) (redis_client w))) by (by rewrite E1).
    by rewrite perform_others by apply job_key_not_lane.
Qed.

(** X5: when the key of the lane holds a string, the LPUSH is refused:
    the call raises the error of the store after the record is written,
    and makes no hand-off. *)
Theorem create_job_lane_of_wrong_type env job_type parameters priority user_id max_retries
    (w : World Celery) :
  store_up 2 (faults (redis_client w)) = true ->
  accepts_list (priority_queue_key priority) (keyspace (redis_client w)) = false ->
  let w' := snd (create_job handoff env job_type parameters priority user_id max_retries w) in
  fst (create_job handoff env job_type parameters priority user_id max_retries w) =
    Raised RedisResponseError
  /\ keyspace (redis_client w') =
       <[job_key_of (new_job_id env) :=
           job_entry env job_type parameters priority user_id max_retries]>
         (keyspace (redis_client w))
  /\ celery_app w' = celery_app w
  /\ logger w' = logger w.
Proof.
  intros Hup Hclash. cbv zeta. unfold create_job, bind.
  rewrite create_job_body_replay. unfold call_commands. cbn [app].
  erewrite perform_all_step by (apply perform_setex_up; by eapply store_up_head).
  assert (Hrefused :
    perform (LPUSH (priority_queue_key priority) (new_job_id env))
      {| keyspace := <[job_key_of (new_job_id env) :=
                         job_entry env job_type parameters priority user_id max_retries]>
                       (keyspace (redis_client w));
         issued := SETEX (job_key_of (new_job_id env)) 604800
                     (json_dumps (JDict (asdict (job_record env job_type parameters
                                                   priority user_id max_retries))))
                   :: issued (redis_client w);
         faults := tail (faults (redis_client w)) |} =
    (Raised RedisResponseError,
     {| keyspace := <[job_key_of (new_job_id env) :=
                        job_entry env job_type parameters priority user_id max_retries]>
                      (keyspace (redis_client w));
        issued := LPUSH (priority_queue_key priority) (new_job_id env)
                  :: SETEX (job_key_of (new_job_id env)) 604800
                       (json_dumps (JDict (asdict (job_record env job_type parameters
                                                     priority user_id max_retries))))
                  :: issued (redis_client w);
        faults := tail (tail (faults (redis_client w))) |})).
  { unfold perform. rewrite round_trip_up by (by apply store_up_tail).
    rewrite lpush_effect_refused; [done|].
    cbn [keyspace]. unfold accepts_list.
    by rewrite lookup_insert_ne by apply job_key_not_lane. }
  unfold job_entry in *. rewrite (perform_all_stop _ _ _ _ _ Hrefused).
  done.
Qed.

Lemma create_job_returns_core env job_type parameters priority user_id max_retries
    (w : World Celery) :
  store_takes priority user_id (redis_client w) = true ->
  fst (handoff (new_job_id env) job_type parameters (celery_app w)) = Returned tt ->
  fst (create_job handoff env job_type parameters priority user_id max_retries w) =
    Returned (new_job_id env).
Proof.
  intros Htakes Hhand. unfold create_job, bind.
  rewrite create_job_body_succeeds by done. cbv zeta.
  destruct (handoff _ _ _ _) as [[[]|e] c]; simpl in *; [done | discriminate].
Qed.

(** ** Several calls *)

Lemma submit_user_index q (w : World Celery) j u :
  u <> "" ->
  fst (submit handoff q w) = Returned j ->
  list_at (user_jobs_key_of u) (keyspace (redis_client (snd (submit handoff q w)))) =
    (user_ids u [q] ++ list_at (user_jobs_key_of u) (keyspace (redis_client w)))%list.
Proof.
  unfold submit. intros Hu Hret. apply create_job_returned in Hret as [_ Hret].
  rewrite create_job_redis, call_commands_user_index by done.
  unfold user_ids. rewrite filter_cons, filter_nil.
  by destruct (decide (req_user_id q = Some u)).
Qed.

(** X6: the index of a user lists the jobs newest first.  After a sequence
    of calls that return, the list under user_jobs:<u>, for a user id [u]
    that is not empty, holds the ids of the calls made for [u], the latest
    first, before what it held. *)
Theorem user_index_newest_first qs (w : World Celery) ids u :
  u <> "" ->
  fst (submit_all handoff qs w) = Returned ids ->
  list_at ("user_jobs:" +:+ u)
    (keyspace (redis_client (snd (submit_all handoff qs w)))) =
    (rev (user_ids u qs) ++ list_at ("user_jobs:" +:+ u) (keyspace (redis_client w)))%list.
Proof.
  intros Hu. fold (user_jobs_key_of u).
  revert w ids. induction qs as [|q qs IH]; intros w ids; [done|].
  rewrite !submit_all_cons.
  pose proof (submit_user_index q w) as Hone.
  destruct (submit handoff q w) as [[j|e] w1]; [|discriminate].
  specialize (Hone j u Hu eq_refl). cbn [snd] in Hone.
  specialize (IH w1).
  destruct (submit_all handoff qs w1) as [[later|e] w2]; [|discriminate].
  specialize (IH later eq_refl). cbn [snd] in IH.
  intros _. cbn [snd].
  rewrite IH, Hone. unfold user_ids.
  rewrite (filter_cons _ q qs), (filter_cons _ q []), filter_nil.
  destruct (decide (req_user_id q = Some u)); simpl; [|done].
  by rewrite <- app_assoc.
Qed.

Lemma submit_record q (w : World Celery) j :
  fst (submit handoff q w) = Returned j ->
  keyspace (redis_client (snd (submit handoff q w)))
    !! job_key_of (new_job_id (req_env q)) = Some (request_entry q).
Proof.
  unfold submit. intros Hret. apply create_job_returned in Hret as [_ Hret].
  rewrite create_job_redis. by apply call_commands_record.
Qed.

Lemma submit_all_other_record qs (w : World Celery) j :
  Forall (fun q => new_job_id (req_env q) <> j) qs ->
  keyspace (redis_client (snd (submit_all handoff qs w))) !! job_key_of j =
  keyspace (redis_client w) !! job_key_of j.
Proof.
  revert w. induction qs as [|q qs IH]; intros w Hqs; [done|].
  apply Forall_cons in Hqs as [Hq Hqs].
  rewrite submit_all_cons.
  assert (Hone : keyspace (redis_client (snd (submit handoff q w))) !! job_key_of j =
                 keyspace (redis_client w) !! job_key_of j).
  { unfold submit. rewrite create_job_redis.
    apply perform_all_others, call_commands_keys.
    - intros Heq. by apply job_key_of_inj in Heq.
    - apply job_key_not_lane.
    - intros _. apply job_key_not_user. }
  destruct (submit handoff q w) as [[j'|e] w1]; [|done].
  cbn [snd] in Hone. specialize (IH w1 Hqs).
  destruct (submit_all handoff qs w1) as [[later|e] w2]; cbn [snd] in *; congruence.
Qed.

(** X7: a later call does not disturb the record of an earlier one.  After
    a sequence of calls that return, whose job ids are pairwise different,
    every job of the sequence has its own record in the store. *)
Theorem submit_all_keeps_records qs (w : World Celery) ids q :
  NoDup (map (fun q => new_job_id (req_env q)) qs) ->
  fst (submit_all handoff qs w) = Returned ids ->
  q ∈ qs ->
  keyspace (redis_client (snd (submit_all handoff qs w)))
    !! ("job:" +:+ new_job_id (req_env q)) = Some (request_entry q).
Proof.
  fold (job_key_of (new_job_id (req_env q))).
  revert w ids. induction qs as [|q0 qs IH]; intros w ids Hdup Hret Hin.
  { by apply elem_of_nil in Hin. }
  cbn [map] in Hdup. apply NoDup_cons in Hdup as [Hfresh Hdup].
  rewrite submit_all_cons in Hret.
  pose proof (submit_record q0 w) as Hone.
  pose proof (submit_all_cons _ handoff q0 qs w) as Hcons.
  destruct (submit handoff q0 w) as [[j|e] w1]; [|discriminate].
  specialize (Hone j eq_refl). cbn [snd] in Hone.
  pose proof (submit_all_other_record qs w1 (new_job_id (req_env q0))) as Hkeep.
  specialize (IH w1).
  destruct (submit_all handoff qs w1) as [[later|e] w2] eqn:Hall; [|discriminate].
  rewrite Hcons. cbn [snd] in *.
  apply elem_of_cons in Hin as [->|Hin].
  - rewrite Hkeep; [done|].
    apply Forall_forall. intros q' Hq' Heq. apply Hfresh.
    change (new_job_id (req_env q0) ∈ (fun q => new_job_id (req_env q)) <$> qs).
    rewrite <- Heq.
    by apply (list_elem_of_fmap_2 (fun q => new_job_id (req_env q))).
  - by apply (IH later).
Qed.

End CreateJobFurther.

(** * Input sanitisation *)

(** ** Prefixes and occurrences *)

Lemma prefix_split p s : String.prefix p s = true -> exists t, s = p +:+ t.
Proof.
  revert s. induction p as [|a p IH]; intros s.
  - intros _. by exists s.
  - destruct s as [|b s]; simpl; [discriminate|].
    destruct (Ascii.ascii_dec a b) as [->|Hne]; [|discriminate].
    intros Hp. destruct (IH s Hp) as [t ->]. by exists t.
Qed.

Lemma prefix_nil s : String.prefix "" s = true.
Proof. by destruct s. Qed.

Lemma prefix_app p t : String.prefix p (p +:+ t) = true.
Proof.
  induction p as [|a p IH]; [apply prefix_nil|].
  simpl. by destruct (Ascii.ascii_dec a a).
Qed.

Lemma replace_scheme_here t :
  py_replace "http://" "https://" ("http://" +:+ t) =
  "https://" +:+ py_replace "http://" "https://" t.
Proof.
  unfold py_replace. simpl. by rewrite prefix_nil.
Qed.

Lemma py_in_cons m c s : py_in m s = true -> py_in m (String c s) = true.
Proof. intros H. cbn [py_in]. rewrite H. apply orb_true_r. Qed.

Lemma py_in_prefix m s : String.prefix m s = true -> py_in m s = true.
Proof. intros H. destruct s; cbn [py_in]; by rewrite H. Qed.

Lemma py_in_app m p s : py_in m s = true -> py_in m (p +:+ s) = true.
Proof. intros H. induction p as [|c p IH]; [done|]. by apply py_in_cons. Qed.

Lemma py_in_nonempty m s : m <> "" -> py_in m s = true -> s <> "".
Proof. intros Hm Hin ->. destruct m; [done|]. discriminate. Qed.

(** ** Stripping *)

Lemma py_rstrip_idem s : py_rstrip (py_rstrip s) = py_rstrip s.
Proof.
  induction s as [|c s IH]; [done|]. cbn [py_rstrip].
  destruct (py_rstrip s) as [|c' kept] eqn:Hs.
  - destruct (py_isspace c) eqn:Hc; [done|]. cbn [py_rstrip]. by rewrite Hc.
  - change (py_rstrip (String c (String c' kept))) with
      (match py_rstrip (String c' kept) with
       | EmptyString => if py_isspace c then EmptyString else String c EmptyString
       | String c'' kept' => String c (String c'' kept')
       end).
    by rewrite IH.
Qed.

Lemma py_rstrip_cons c s : py_rstrip s = s -> s <> "" -> py_rstrip (String c s) = String c s.
Proof. intros Hs Hne. cbn [py_rstrip]. rewrite Hs. by destruct s. Qed.

Lemma py_rstrip_cons_inv c s :
  py_rstrip (String c s) = String c s -> s <> "" -> py_rstrip s = s.
Proof.
  cbn [py_rstrip]. destruct (py_rstrip s) as [|c' kept].
  - destruct (py_isspace c); [discriminate|]. intros [= <-]. done.
  - by intros [= <-].
Qed.

Lemma py_rstrip_app p s : py_rstrip s = s -> s <> "" -> py_rstrip (p +:+ s) = p +:+ s.
Proof.
  intros Hs Hne. induction p as [|c p IH]; [done|].
  simpl. apply py_rstrip_cons; [done|]. by destruct p, s.
Qed.

Lemma py_rstrip_app_inv p s : py_rstrip (p +:+ s) = p +:+ s -> s <> "" -> py_rstrip s = s.
Proof.
  intros Hps Hne. induction p as [|c p IH]; [done|].
  simpl in Hps. apply IH. apply (py_rstrip_cons_inv c); [done|]. by destruct p, s.
Qed.

Lemma py_lstrip_head s :
  py_lstrip s = "" \/ exists c s', py_lstrip s = String c s' /\ py_isspace c = false.
Proof.
  induction s as [|c s IH]; [by left|]. simpl.
  destruct (py_isspace c) eqn:Hc; [done|]. right. by exists c, s.
Qed.

Lemma py_rstrip_head c s :
  py_isspace c = false -> exists s', py_rstrip (String c s) = String c s'.
Proof.
  intros Hc. cbn [py_rstrip]. destruct (py_rstrip s) as [|c' kept]; rewrite ?Hc; by eexists.
Qed.

(** What strip() returns is empty or has no white space at either end. *)
Lemma py_strip_shape s :
  py_strip s = "" \/
  exists c s', py_strip s = String c s' /\ py_isspace c = false
               /\ py_rstrip (String c s') = String c s'.
Proof.
  unfold py_strip. destruct (py_lstrip_head s) as [-> | (c & s' & -> & Hc)]; [by left|].
  right. destruct (py_rstrip_head c s' Hc) as [kept Hkept].
  exists c, kept. repeat split; [done|done|].
  rewrite <- Hkept. apply py_rstrip_idem.
Qed.

Lemma py_strip_fixed s :
  py_lstrip s = s -> py_rstrip s = s -> py_strip s = s.
Proof. intros Hl Hr. unfold py_strip. by rewrite Hl. Qed.

Lemma py_lstrip_fixed c s : py_isspace c = false -> py_lstrip (String c s) = String c s.
Proof. intros Hc. cbn [py_lstrip]. by rewrite Hc. Qed.

(** ** Replacing the scheme *)

Lemma replace_scheme_nonempty s :
  s <> "" -> py_replace "http://" "https://" s <> "".
Proof.
  destruct s as [|c s]; [done|]. intros _. unfold py_replace. cbn [py_replace_from].
  by destruct (String.prefix "http://" (String c s)).
Qed.

(** The tactic for a strong induction on the length of a string. *)
Lemma string_length_ind (P : string -> Prop) :
  (forall s, (forall t, (String.length t < String.length s)%nat -> P t) -> P s) ->
  forall s, P s.
Proof.
  intros Hstep s.
  assert (H : forall n t, (String.length t < n)%nat -> P t).
  { induction n as [|n IH]; intros t Ht; [lia|].
    apply Hstep. intros t' Ht'. apply IH. lia. }
  apply (H (S (String.length s))). lia.
Qed.

Lemma length_app_scheme t :
  (String.length t < String.length ("http://" +:+ t))%nat.
Proof. cbv [String.append String.length]. fold String.length. lia. Qed.

Lemma length_cons_string c t : (String.length t < String.length (String c t))%nat.
Proof. cbv [String.length]. fold String.length. lia. Qed.

Lemma replace_scheme_clean_end s :
  py_rstrip s = s ->
  py_rstrip (py_replace "http://" "https://" s) = py_replace "http://" "https://" s.
Proof.
  induction s as [s IH] using string_length_ind. intros Hs.
  destruct s as [|c s]; [done|].
  destruct (String.prefix "http://" (String c s)) eqn:Hp.
  - destruct (prefix_split _ _ Hp) as [t Ht]. rewrite Ht in *.
    rewrite replace_scheme_here.
    destruct (decide (t = "")) as [->|Hne]; [done|].
    apply py_rstrip_app; [|by apply replace_scheme_nonempty].
    apply IH; [apply length_app_scheme|].
    by apply (py_rstrip_app_inv "http://").
  - unfold py_replace. cbn [py_replace_from]. rewrite Hp.
    fold (py_replace "http://" "https://" s).
    destruct (decide (s = "")) as [->|Hne]; [done|].
    apply py_rstrip_cons; [|by apply replace_scheme_nonempty].
    apply IH; [apply length_cons_string|]. by apply (py_rstrip_cons_inv c).
Qed.

Section Marker.

(** A marker that "http://" does not meet: no occurrence of the scheme
    starts inside it, and it starts inside neither scheme. *)
Variable m : string.
Hypothesis m_nonempty : m <> "".
Hypothesis m_after_http : forall t, py_in m ("http://" +:+ t) = py_in m t.
Hypothesis m_after_https : forall t, py_in m ("https://" +:+ t) = py_in m t.
Hypothesis m_kept : forall t,
  py_replace "http://" "https://" (m +:+ t) = m +:+ py_replace "http://" "https://" t.

Lemma replace_scheme_keeps_marker s :
  py_in m s = true -> py_in m (py_replace "http://" "https://" s) = true.
Proof.
  induction s as [s IH] using string_length_ind. intros Hin.
  destruct s as [|c s]; [by destruct m|].
  destruct (String.prefix "http://" (String c s)) eqn:Hp.
  - destruct (prefix_split _ _ Hp) as [t Ht]. rewrite Ht in *.
    rewrite replace_scheme_here.
    rewrite m_after_https. apply IH; [apply length_app_scheme|].
    by rewrite <- m_after_http.
  - cbn [py_in] in Hin. apply orb_prop in Hin as [Hhere | Hlater].
    + destruct (prefix_split _ _ Hhere) as [t Ht]. rewrite Ht.
      rewrite m_kept. apply py_in_prefix, prefix_app.
    + unfold py_replace. cbn [py_replace_from]. rewrite Hp.
      apply py_in_cons. apply IH; [apply length_cons_string | done].
Qed.

End Marker.

Lemma replace_scheme_keeps_markers s :
  py_in "linkedin.com/in/" s || py_in "linkedin.com/pub/" s = true ->
  py_in "linkedin.com/in/" (py_replace "http://" "https://" s)
  || py_in "linkedin.com/pub/" (py_replace "http://" "https://" s) = true.
Proof.
  intros H. apply orb_prop in H as [H|H]; apply orb_true_iff; [left|right];
    (apply replace_scheme_keeps_marker; [done|done|done|done|exact H]).
Qed.

(** ** The sanitiser *)

Lemma sanitize_linkedin_url_shape url clean_url :
  sanitize_linkedin_url url = Valid clean_url ->
  String.prefix "https://" clean_url = true
  /\ py_in "linkedin.com/in/" clean_url || py_in "linkedin.com/pub/" clean_url = true.
Proof.
  unfold sanitize_linkedin_url.
  destruct (py_in "linkedin.com/in/" (py_strip url)
            || py_in "linkedin.com/pub/" (py_strip url)) eqn:Hmark; [|discriminate].
  cbn [negb].
  destruct (String.prefix "http://" (py_strip url)) eqn:Hhttp.
  - intros [= <-]. split; [|by apply replace_scheme_keeps_markers].
    destruct (prefix_split _ _ Hhttp) as [t ->].
    rewrite replace_scheme_here. apply prefix_app.
  - destruct (String.prefix "https://" (py_strip url)) eqn:Hhttps; intros [= <-].
    + done.
    + split; [apply prefix_app|].
      apply orb_prop in Hmark as [H|H]; apply orb_true_iff; [left|right];
        by apply (py_in_app _ "https://").
Qed.

(** X8: a URL that is accepted comes back with the scheme "https://" and
    still contains "linkedin.com/in/" or "linkedin.com/pub/". *)
Theorem sanitize_linkedin_url_result url clean_url :
  sanitize_linkedin_url url = Valid clean_url ->
  String.prefix "https://" clean_url = true
  /\ py_in "linkedin.com/in/" clean_url || py_in "linkedin.com/pub/" clean_url = true.
Proof. apply sanitize_linkedin_url_shape. Qed.

(** X9: the sanitiser changes nothing in what it has returned: a URL it
    accepted is accepted again, as it is. *)
Theorem sanitize_linkedin_url_idempotent url clean_url :
  sanitize_linkedin_url url = Valid clean_url ->
  sanitize_linkedin_url clean_url = Valid clean_url.
Proof.
  intros Hfirst.
  destruct (sanitize_linkedin_url_shape _ _ Hfirst) as [Hhttps Hmark].
  assert (Hstrip : py_strip clean_url = clean_url).
  { revert Hfirst. unfold sanitize_linkedin_url.
    destruct (py_in "linkedin.com/in/" (py_strip url)
              || py_in "linkedin.com/pub/" (py_strip url)) eqn:Hm; [|discriminate].
    cbn [negb].
    assert (Hne : py_strip url <> "").
    { apply orb_prop in Hm as [H|H]; by apply py_in_nonempty in H. }
    destruct (py_strip_shape url) as [Hempty | (c & s' & Hshape & Hc & Hr)]; [done|].
    rewrite Hshape in *.
    destruct (String.prefix "http://" (String c s')) eqn:Hhttp.
    - intros [= <-]. destruct (prefix_split _ _ Hhttp) as [t Ht].
      pose proof (replace_scheme_clean_end _ Hr) as Hclean.
      rewrite Ht in *. rewrite replace_scheme_here in *.
      by apply py_strip_fixed.
    - destruct (String.prefix "https://" (String c s')) eqn:Hs; intros [= <-].
      + apply py_strip_fixed; [by apply py_lstrip_fixed | done].
      + apply py_strip_fixed; [done|].
        by apply (py_rstrip_app "https://"). }
  unfold sanitize_linkedin_url. rewrite Hstrip, Hmark. cbn [negb].
  rewrite Hhttps.
  destruct (prefix_split _ _ Hhttps) as [t ->].
  reflexivity.
Qed.

(** ** The loop over the submitted URLs *)

(** X10: the loop of the endpoint returns the sanitised URLs, one for each
    URL submitted and in the same order, when every URL is accepted; else
    it stops at the first URL that is refused and reports that URL as it
    was submitted. *)
Theorem validate_urls_all_or_first urls :
  match validate_urls urls with
  | inr validated_urls =>
      Forall2 (fun url clean_url => sanitize_linkedin_url url = Valid clean_url)
        urls validated_urls
  | inl (url, message) =>
      exists accepted later,
        urls = (accepted ++ url :: later)%list
        /\ Forall (fun u => exists c, sanitize_linkedin_url u = Valid c) accepted
        /\ sanitize_linkedin_url url = ValueError message
  end.
Proof.
  induction urls as [|url urls IH]; [constructor|].
  cbn [validate_urls].
  destruct (sanitize_linkedin_url url) as [clean_url|message] eqn:Hurl.
  - destruct (validate_urls urls) as [[bad message]|validated_urls].
    + destruct IH as (accepted & later & -> & Hacc & Hbad).
      exists (url :: accepted), later. repeat split; [|done].
      constructor; [by exists clean_url | done].
    + by constructor.
  - exists [], urls. by repeat split.
Qed.

(** * Quotas and the security log *)

(** ** Decimal texts *)

Lemma to_int_proper z : Z.to_int z <> Decimal.Pos Decimal.Nil /\ Z.to_int z <> Decimal.Neg Decimal.Nil.
Proof.
  destruct z as [|p|p]; simpl; split; try discriminate;
    intros [= H]; by apply DecimalPos.Unsigned.to_uint_nonnil in H.
Qed.

Lemma redis_integer_decimal z :
  int64_min <= z <= int64_max -> redis_integer (Plain (decimal z)) = Some z.
Proof.
  intros [Hmin Hmax]. unfold redis_integer, decimal.
  destruct (to_int_proper z) as [Hpos Hneg].
  rewrite DecimalString.NilZero.isi by done.
  cbv zeta. rewrite DecimalZ.of_to, String.eqb_refl.
  apply Z.leb_le in Hmin, Hmax. by rewrite Hmin, Hmax.
Qed.

Lemma redis_integer_plain t z :
  redis_integer t = Some z ->
  t = Plain (decimal z) /\ int64_min <= z <= int64_max /\ text_truthy t = true.
Proof.
  destruct t as [s|items]; [|discriminate]. unfold redis_integer.
  destruct (DecimalString.NilZero.int_of_string s) as [d|] eqn:Hd; [|discriminate].
  cbv zeta.
  destruct (String.eqb (decimal (Z.of_int d)) s) eqn:Heq; [|discriminate].
  destruct (int64_min <=? Z.of_int d)%Z eqn:Hmin; [|discriminate].
  destruct (Z.of_int d <=? int64_max)%Z eqn:Hmax; [|discriminate].
  intros [= <-]. apply String.eqb_eq in Heq. apply Z.leb_le in Hmin, Hmax.
  repeat split; try done.
  - by rewrite Heq.
  - destruct s; [discriminate Hd | done].
Qed.

(** ** One check, one increment *)

Section SecurityFacts.

Variable py_int : string -> option Z.

Lemma check_api_quota_counts user_id operation (s : Security) z :
  counter_at (quota_key_of user_id operation) (sec_keyspace (security_redis s)) = Some z ->
  store_up 1 (sec_faults (security_redis s)) = true ->
  check_api_quota py_int user_id operation s =
    (Returned (z <? 1000)%Z,
     {| security_redis :=
          {| sec_keyspace := sec_keyspace (security_redis s);
             sec_issued := GET (quota_key_of user_id operation)
                           :: sec_issued (security_redis s);
             sec_faults := tail (sec_faults (security_redis s)) |};
        security_logger := security_logger s |}).
Proof.
  destruct s as [[ks sent script] lg]. cbn [security_redis sec_keyspace sec_issued sec_faults
    security_logger].
  intros Hcount Hup.
  unfold check_api_quota, on_security_redis, sec_round_trip.
  cbn [security_redis sec_keyspace sec_issued sec_faults security_logger].
  assert (Hscript : match script with true :: _ => False | _ => True end).
  { by destruct script as [|[] script]. }
  unfold counter_at, get_effect in *.
  destruct (ks !! quota_key_of user_id operation) as [[[text|items] t]|] eqn:Hk.
  - apply redis_integer_plain in Hcount as (-> & Hrange & Htruthy).
    destruct script as [|[] script]; [|done|]; cbn [tail];
      rewrite Htruthy; unfold int_of_text;
      by rewrite redis_integer_decimal.
  - discriminate.
  - injection Hcount as <-. by destruct script as [|[] script].
Qed.

End SecurityFacts.

Lemma increment_api_usage_effect user_id operation (s : Security) z :
  counter_at (quota_key_of user_id operation) (sec_keyspace (security_redis s)) = Some z ->
  z < int64_max ->
  store_up 1 (sec_faults (security_redis s)) = true ->
  increment_api_usage user_id operation s =
    (Returned tt,
     {| security_redis :=
          {| sec_keyspace :=
               <[quota_key_of user_id operation :=
                   {| sec_value := SString (Plain (decimal (z + 1)));
                      sec_ttl := Some 86400 |}]> (sec_keyspace (security_redis s));
             sec_issued := EXEC [INCR (quota_key_of user_id operation);
                                 QEXPIRE (quota_key_of user_id operation) 86400]
                           :: sec_issued (security_redis s);
             sec_faults := tail (sec_faults (security_redis s)) |};
        security_logger := security_logger s |}).
Proof.
  destruct s as [[ks sent script] lg]. cbn [security_redis sec_keyspace sec_issued sec_faults
    security_logger].
  intros Hcount Hmax Hup.
  unfold increment_api_usage, on_security_redis, sec_execute.
  cbn [security_redis sec_keyspace sec_issued sec_faults security_logger].
  set (key := quota_key_of user_id operation) in *.
  assert (Hexec : exec_effect [INCR key; QEXPIRE key 86400] ks =
            (None, <[key := {| sec_value := SString (Plain (decimal (z + 1)));
                               sec_ttl := Some 86400 |}]> ks)).
  { cbn [exec_effect]. unfold incr_effect, counter_at in *.
    destruct (ks !! key) as [[[text|items] t]|] eqn:Hk.
    - rewrite Hcount. apply Z.ltb_lt in Hmax. rewrite Hmax.
      cbn [fst snd]. unfold sec_expire_effect. rewrite lookup_insert_eq.
      cbn [fst snd sec_value]. by rewrite insert_insert_eq.
    - discriminate.
    - injection Hcount as <-.
      cbn [fst snd]. unfold sec_expire_effect. rewrite lookup_insert_eq.
      cbn [fst snd sec_value]. by rewrite insert_insert_eq. }
  rewrite Hexec. by destruct script as [|[] script].
Qed.

Lemma counter_at_range key ks z : counter_at key ks = Some z -> int64_min <= z <= int64_max.
Proof.
  unfold counter_at. destruct (ks !! key) as [[[text|items] t]|].
  - intros H. by apply redis_integer_plain in H as (_ & Hr & _).
  - discriminate.
  - intros [= <-]. unfold int64_min, int64_max. lia.
Qed.

(** X11: a use of the quota adds one to the count under
    quota:<user>:<operation>, an absent key counting as 0, and sets the
    expiry of the key to 24 hours whatever it was: the day of a quota
    starts again at every use.  No other key is changed. *)
Theorem increment_api_usage_counts user_id operation (s : Security) z :
  counter_at (quota_key_of user_id operation) (sec_keyspace (security_redis s)) = Some z ->
  z < int64_max ->
  store_up 1 (sec_faults (security_redis s)) = true ->
  let s' := snd (increment_api_usage user_id operation s) in
  fst (increment_api_usage user_id operation s) = Returned tt
  /\ counter_at ("quota:" +:+ user_id +:+ ":" +:+ operation)
       (sec_keyspace (security_redis s')) = Some (z + 1)
  /\ sec_ttl_at ("quota:" +:+ user_id +:+ ":" +:+ operation)
       (sec_keyspace (security_redis s')) = Some 86400
  /\ forall key, key <> "quota:" +:+ user_id +:+ ":" +:+ operation ->
       sec_keyspace (security_redis s') !! key = sec_keyspace (security_redis s) !! key.
Proof.
  intros Hcount Hmax Hup. cbv zeta.
  rewrite (increment_api_usage_effect _ _ _ z) by done.
  cbn [fst snd security_redis sec_keyspace].
  fold (quota_key_of user_id operation).
  pose proof (counter_at_range _ _ _ Hcount) as Hrange.
  split; [done|]. split; [|split].
  - unfold counter_at. rewrite lookup_insert_eq.
    apply redis_integer_decimal. lia.
  - unfold sec_ttl_at. by rewrite lookup_insert_eq.
  - intros key Hne. by rewrite lookup_insert_ne.
Qed.

(** X19: a use that Redis refuses still restarts the day.  When the key
    quota:<user>:<operation> is there and does not hold an integer below
    the largest (a text that is no integer, a list, or the largest
    integer), the INCR of the transaction is refused and the call raises
    the error of the store; the EXPIRE of the same transaction has run
    all the same: the value of the key is as it was and its expiry is 24
    hours. *)
Theorem increment_api_usage_refused user_id operation (s : Security) entry :
  sec_keyspace (security_redis s) !! quota_key_of user_id operation = Some entry ->
  (forall z, counter_at (quota_key_of user_id operation)
               (sec_keyspace (security_redis s)) = Some z -> z = int64_max) ->
  store_up 1 (sec_faults (security_redis s)) = true ->
  let s' := snd (increment_api_usage user_id operation s) in
  fst (increment_api_usage user_id operation s) = Raised RedisResponseError
  /\ sec_keyspace (security_redis s') !! ("quota:" +:+ user_id +:+ ":" +:+ operation) =
       Some {| sec_value := sec_value entry; sec_ttl := Some 86400 |}
  /\ forall key, key <> "quota:" +:+ user_id +:+ ":" +:+ operation ->
       sec_keyspace (security_redis s') !! key = sec_keyspace (security_redis s) !! key.
Proof.
  destruct s as [[ks sent script] lg]. cbn [security_redis sec_keyspace sec_issued sec_faults
    security_logger].
  fold (quota_key_of user_id operation).
  set (key := quota_key_of user_id operation).
  intros Hentry Hcount Hup. cbv zeta.
  unfold increment_api_usage, on_security_redis, sec_execute.
  cbn [security_redis sec_keyspace sec_issued sec_faults security_logger].
  fold key.
  assert (Hexec : exec_effect [INCR key; QEXPIRE key 86400] ks =
            (Some RedisResponseError,
             <[key := {| sec_value := sec_value entry; sec_ttl := Some 86400 |}]> ks)).
  { assert (Hincr : incr_effect key ks = Raised RedisResponseError).
    { unfold incr_effect. unfold counter_at in Hcount. rewrite Hentry in *.
      destruct entry as [[text|items] t]; [|done].
      destruct (redis_integer text) as [z|]; [|done].
      rewrite (Hcount z eq_refl). done. }
    cbn [exec_effect]. rewrite Hincr. cbn [fst snd].
    unfold sec_expire_effect. rewrite Hentry. done. }
  rewrite Hexec.
  destruct script as [|[] script]; [|done|];
    cbn [fst snd security_redis sec_keyspace];
    (split; [done|]); (split; [apply lookup_insert_eq|]);
    intros k Hne; by rewrite lookup_insert_ne.
Qed.

Lemma use_quota_counts n user_id operation (s : Security) z :
  counter_at (quota_key_of user_id operation) (sec_keyspace (security_redis s)) = Some z ->
  z + Z.of_nat n <= int64_max ->
  sec_faults (security_redis s) = [] ->
  fst (use_quota n user_id operation s) = Returned tt
  /\ counter_at (quota_key_of user_id operation)
       (sec_keyspace (security_redis (snd (use_quota n user_id operation s)))) =
     Some (z + Z.of_nat n)
  /\ sec_faults (security_redis (snd (use_quota n user_id operation s))) = [].
Proof.
  revert s z. induction n as [|n IH]; intros s z Hcount Hmax Hnil.
  - cbn [use_quota fst snd]. by rewrite Z.add_0_r.
  - cbn [use_quota].
    rewrite (increment_api_usage_effect _ _ _ z); [|done|lia|by rewrite Hnil].
    pose proof (counter_at_range _ _ _ Hcount) as Hrange.
    match goal with
    | |- context [use_quota n user_id operation ?s1] => specialize (IH s1 (z + 1))
    end.
    cbn [security_redis sec_keyspace sec_faults] in IH.
    destruct IH as (Hret & Hc & Hf).
    + unfold counter_at. rewrite lookup_insert_eq. apply redis_integer_decimal. lia.
    + lia.
    + by rewrite Hnil.
    + rewrite Hret, Hc, Hf. repeat split. f_equal. lia.
Qed.

(** X12: the quota is 1000 uses.  After [n] uses on a store that stays up,
    from a count of [z], the check of the quota answers whether [z + n] is
    below 1000: a fresh user is let in 1000 times and refused from then
    on. *)
Theorem quota_is_a_thousand_uses py_int n user_id operation (s : Security) z :
  counter_at (quota_key_of user_id operation) (sec_keyspace (security_redis s)) = Some z ->
  z + Z.of_nat n <= int64_max ->
  sec_faults (security_redis s) = [] ->
  fst (use_quota n user_id operation s) = Returned tt
  /\ fst (check_api_quota py_int user_id operation
            (snd (use_quota n user_id operation s))) =
     Returned (z + Z.of_nat n <? 1000)%Z.
Proof.
  intros Hcount Hmax Hnil.
  destruct (use_quota_counts n user_id operation s z Hcount Hmax Hnil) as (Hret & Hc & Hf).
  split; [done|].
  rewrite (check_api_quota_counts py_int _ _ _ _ Hc); [done|]. by rewrite Hf.
Qed.

(** X13: the security log keeps the 1001 latest events, the newest first:
    the event is pushed at the head of the list "security_events", which
    is then cut after its element of index 1000. *)
Theorem log_security_event_keeps_1001 timestamp event_type user_id details (s : Security) :
  store_up 2 (sec_faults (security_redis s)) = true ->
  accepts_events "security_events" (sec_keyspace (security_redis s)) = true ->
  let s' := snd (log_security_event timestamp event_type user_id details s) in
  fst (log_security_event timestamp event_type user_id details s) = Returned tt
  /\ events_at "security_events" (sec_keyspace (security_redis s')) =
       take 1001 (py_str_dict (security_event timestamp event_type user_id details)
                  :: events_at "security_events" (sec_keyspace (security_redis s)))
  /\ (length (events_at "security_events" (sec_keyspace (security_redis s'))) <= 1001)%nat
  /\ security_logger s' = ("Security event: " +:+ event_type) :: security_logger s.
Proof.
  destruct s as [[ks sent script] lg]. cbn [security_redis sec_keyspace sec_issued sec_faults
    security_logger].
  intros Hup Hacc. cbv zeta.
  unfold log_security_event, on_security_redis, sec_round_trip.
  cbn [security_redis sec_keyspace sec_issued sec_faults security_logger].
  set (event := py_str_dict _).
  assert (Hpush : exists t,
            slpush_effect "security_events" event ks =
              Returned (Z.of_nat (S (length (events_at "security_events" ks))),
                        <["security_events" :=
                            {| sec_value := SList (event :: events_at "security_events" ks);
                               sec_ttl := t |}]> ks)).
  { unfold slpush_effect, events_at, accepts_events in *.
    destruct (ks !! "security_events") as [[[text|items] t]|]; [done| |]; by eexists. }
  destruct Hpush as [t Hpush]. rewrite Hpush.
  assert (Hscript : exists script', script = [] /\ script' = []
            \/ script = [false] /\ script' = []
            \/ script = false :: false :: script').
  { destruct script as [|[] [|[] script']]; try done; eauto 6. }
  assert (Htrim :
    ltrim_effect "security_events" 0 1000
      (<["security_events" :=
           {| sec_value := SList (event :: events_at "security_events" ks);
              sec_ttl := t |}]> ks) =
    Returned (true,
      <["security_events" :=
          {| sec_value := SList (take 1001 (event :: events_at "security_events" ks));
             sec_ttl := t |}]> ks)).
  { unfold ltrim_effect. rewrite lookup_insert_eq.
    change (Z.to_nat (1000 - 0 + 1)) with 1001%nat. change (Z.to_nat 0) with 0%nat.
    cbn [drop]. change 1001%nat with (S 1000) at 1. cbn [take].
    by rewrite insert_insert_eq. }
  assert (Hgoal : forall r : SecRedis,
    sec_keyspace r = <["security_events" :=
          {| sec_value := SList (take 1001 (event :: events_at "security_events" ks));
             sec_ttl := t |}]> ks ->
    events_at "security_events" (sec_keyspace r) =
      take 1001 (event :: events_at "security_events" ks)
    /\ (length (events_at "security_events" (sec_keyspace r)) <= 1001)%nat).
  { intros r ->.
    assert (He : events_at "security_events"
                   (<["security_events" :=
                        {| sec_value := SList (take 1001 (event :: events_at "security_events" ks));
                           sec_ttl := t |}]> ks) =
                 take 1001 (event :: events_at "security_events" ks)).
    { unfold events_at at 1. by rewrite lookup_insert_eq. }
    split; [exact He|]. rewrite He, length_take. lia. }
  destruct Hscript as [script' [[-> ->] | [[-> ->] | ->]]];
    cbn [tail security_redis sec_keyspace sec_issued sec_faults security_logger];
    rewrite Htrim;
    cbn [fst snd security_redis sec_keyspace sec_issued sec_faults security_logger];
    (split; [done|]);
    match goal with
    | |- context [events_at "security_events" ?k = _] =>
        destruct (Hgoal {| sec_keyspace := k; sec_issued := []; sec_faults := [] |} eq_refl)
          as [H1 H2]
    end; cbn [sec_keyspace] in H1, H2; repeat split; done.
Qed.

(** * The scraping endpoint *)

Lemma sanitize_linkedin_url_message url message :
  sanitize_linkedin_url url = ValueError message -> message = "Invalid LinkedIn URL format".
Proof.
  unfold sanitize_linkedin_url.
  destruct (negb _); [by intros [= <-]|].
  destruct (String.prefix "http://" _); [discriminate|].
  by destruct (negb _).
Qed.

Lemma validate_urls_refused accepted url later message :
  Forall (fun u => exists c, sanitize_linkedin_url u = Valid c) accepted ->
  sanitize_linkedin_url url = ValueError message ->
  validate_urls (accepted ++ url :: later) = inl (url, "Invalid LinkedIn URL format").
Proof.
  intros Hacc Hbad. induction Hacc as [|u accepted [c Hu] _ IH]; simpl.
  - rewrite Hbad. by rewrite (sanitize_linkedin_url_message _ _ Hbad).
  - by rewrite Hu, IH.
Qed.

Lemma log_security_event_returns timestamp event_type user_id details (s : Security) :
  store_up 2 (sec_faults (security_redis s)) = true ->
  accepts_events "security_events" (sec_keyspace (security_redis s)) = true ->
  fst (log_security_event timestamp event_type user_id details s) = Returned tt.
Proof.
  destruct s as [[ks sent script] lg]. cbn [security_redis sec_keyspace sec_faults].
  intros Hup Hacc.
  unfold log_security_event, on_security_redis, sec_round_trip.
  cbn [security_redis sec_keyspace sec_issued sec_faults security_logger].
  assert (Hscript : (script = [] \/ script = [false]) \/ exists rest, script = false :: false :: rest).
  { destruct script as [|[] [|[] rest]]; try done; eauto. }
  unfold slpush_effect, accepts_events in *.
  destruct (ks !! "security_events") as [[[text|items] t]|]; [done| |];
    (destruct Hscript as [[-> | ->] | [rest ->]];
     cbn [tail security_redis sec_keyspace sec_issued sec_faults security_logger];
     unfold ltrim_effect; rewrite lookup_insert_eq;
     change (Z.to_nat (1000 - 0 + 1)) with (S 1000); cbn [drop take Z.to_nat]; done).
Qed.

Lemma sec_round_trip_others {A} (c : SecCommand)
    (effect : gmap string SecEntry -> Outcome (A * gmap string SecEntry)) (r : SecRedis) key :
  (forall ks a ks', effect ks = Returned (a, ks') -> ks' !! key = ks !! key) ->
  sec_keyspace (snd (sec_round_trip c effect r)) !! key = sec_keyspace r !! key.
Proof.
  intros Hconf. unfold sec_round_trip.
  destruct (sec_faults r) as [|[] script]; [| done |];
    (destruct (effect (sec_keyspace r)) as [[a ks]|e] eqn:Heff; [|done]);
    simpl; by eapply Hconf.
Qed.

Lemma log_security_event_keyspace timestamp event_type user_id details (s : Security) key :
  key <> "security_events" ->
  sec_keyspace (security_redis (snd (log_security_event timestamp event_type user_id
                                       details s))) !! key =
  sec_keyspace (security_redis s) !! key.
Proof.
  intros Hne. unfold log_security_event, on_security_redis.
  set (event := py_str_dict _).
  pose proof (sec_round_trip_others (SLPUSH "security_events" event)
                (slpush_effect "security_events" event) (security_redis s) key) as Hpush.
  destruct (sec_round_trip (SLPUSH _ _) _ _) as [[a1|e1] r1]; cbn [snd] in Hpush.
  - pose proof (sec_round_trip_others (LTRIM "security_events" 0 1000)
                  (ltrim_effect "security_events" 0 1000) r1 key) as Htrim.
    cbn [security_redis].
    destruct (sec_round_trip (LTRIM _ _ _) _ _) as [[a2|e2] r2]; cbn [snd] in Htrim;
      cbn [snd security_redis]; rewrite Htrim, Hpush; try done.
    all: try (intros ks0 a ks'; unfold ltrim_effect;
              destruct (ks0 !! "security_events") as [[[t0|items] t]|];
              [done| |by intros [= _ <-]];
              destruct (take _ _); intros [= _ <-];
              by rewrite ?lookup_delete_ne, ?lookup_insert_ne).
    all: intros ks0 a ks'; unfold slpush_effect;
         destruct (ks0 !! "security_events") as [[[t0|items] t]|]; [done| |];
         intros [= _ <-]; by rewrite lookup_insert_ne.
  - cbn [snd security_redis]. rewrite Hpush; [done|].
    intros ks0 a ks'; unfold slpush_effect;
      destruct (ks0 !! "security_events") as [[[t0|items] t]|]; [done| |];
      intros [= _ <-]; by rewrite lookup_insert_ne.
Qed.

Section EndpointFacts.

Variable Celery : Type.
Variable handoff : string -> string -> option PyDict -> Celery -> Outcome unit * Celery.
Variable Metrics : Type.
Variable track_api_request : string -> string -> Z -> Metrics -> Outcome unit * Metrics.
Variable py_int : string -> option Z.

(** X14: a URL that the sanitiser refuses stops the request before
    anything else happens: the answer is 400 and names the first such URL
    as it was submitted; no quota is read or used, no job is created and
    nothing is logged. *)
Theorem scrape_refuses_bad_url env scrape_request current_user_id
    (a : Api Celery Metrics) accepted url later message :
  urls scrape_request = (accepted ++ url :: later)%list ->
  Forall (fun u => exists c, sanitize_linkedin_url u = Valid c) accepted ->
  sanitize_linkedin_url url = ValueError message ->
  scrape_linkedin_profiles handoff track_api_request py_int env scrape_request
    current_user_id a =
  (HTTPException 400
     ("Invalid LinkedIn URL: " +:+ url +:+ " - Invalid LinkedIn URL format"), a).
Proof.
  intros Hurls Hacc Hbad. unfold scrape_linkedin_profiles.
  by rewrite Hurls, (validate_urls_refused _ _ _ _ Hacc Hbad).
Qed.

(** X15: when the count of the user has reached 1000 the answer is 429:
    no job is created, the count stays as it is, nothing is handed to the
    metrics. *)
Theorem scrape_quota_exhausted env scrape_request current_user_id
    (a : Api Celery Metrics) validated_urls z :
  validate_urls (urls scrape_request) = inr validated_urls ->
  counter_at (quota_key_of current_user_id "scraping")
    (sec_keyspace (security_redis (security a))) = Some z ->
  1000 <= z ->
  store_up 1 (sec_faults (security_redis (security a))) = true ->
  let res := scrape_linkedin_profiles handoff track_api_request py_int env scrape_request
               current_user_id a in
  fst res = HTTPException 429 "API quota exceeded for scraping operations"
  /\ job_queue (snd res) = job_queue a
  /\ sec_keyspace (security_redis (security (snd res))) =
       sec_keyspace (security_redis (security a))
  /\ metrics_collector (snd res) = metrics_collector a
  /\ api_errors (snd res) = api_errors a.
Proof.
  intros Hvalid Hcount Hz Hup. cbv zeta. unfold scrape_linkedin_profiles.
  rewrite Hvalid, (check_api_quota_counts py_int _ _ _ z) by done.
  assert (Hlt : (z <? 1000)%Z = false) by (apply Z.ltb_ge; lia).
  rewrite Hlt. done.
Qed.

(** X16: when [create_job] raises, whatever the exception, the answer is
    500 "Failed to create scraping job", the exception is logged, and the
    quota of the user is not used: the count stays as it is. *)
Theorem scrape_failure_keeps_quota env scrape_request current_user_id
    (a : Api Celery Metrics) validated_urls z e :
  validate_urls (urls scrape_request) = inr validated_urls ->
  counter_at (quota_key_of current_user_id "scraping")
    (sec_keyspace (security_redis (security a))) = Some z ->
  z < 1000 ->
  store_up 1 (sec_faults (security_redis (security a))) = true ->
  fst (create_job handoff (job_env env) "linkedin_scraping"
         (Some [("urls", JList (map JStr validated_urls));
                ("user_id", JStr current_user_id)])
         (priority_of_request (scrape_priority scrape_request))
         (Some current_user_id) 3 (job_queue a)) = Raised e ->
  let res := scrape_linkedin_profiles handoff track_api_request py_int env scrape_request
               current_user_id a in
  fst res = HTTPException 500 "Failed to create scraping job"
  /\ sec_keyspace (security_redis (security (snd res))) =
       sec_keyspace (security_redis (security a))
  /\ metrics_collector (snd res) = metrics_collector a
  /\ api_errors (snd res) = e :: api_errors a.
Proof.
  intros Hvalid Hcount Hz Hup Hjob. cbv zeta. unfold scrape_linkedin_profiles.
  rewrite Hvalid, (check_api_quota_counts py_int _ _ _ z) by done.
  assert (Hlt : (z <? 1000)%Z = true) by (apply Z.ltb_lt; lia).
  rewrite Hlt.
  destruct (create_job _ _ _ _ _ _ _ _) as [[j|e'] q1]; simpl in Hjob; [discriminate|].
  by injection Hjob as ->.
Qed.

(** X17: when every step succeeds the answer carries the id of the job,
    the status "pending" and the number of URLs; the job is created for
    the user with the type "linkedin_scraping", the sanitised URLs in the
    order submitted, the priority named in the request (NORMAL for a name
    that is not known) and 3 retries; and the count of the user has grown
    by one.  An empty list of URLs is accepted as any other. *)
Theorem scrape_creates_job env scrape_request current_user_id
    (a : Api Celery Metrics) validated_urls z :
  validate_urls (urls scrape_request) = inr validated_urls ->
  counter_at (quota_key_of current_user_id "scraping")
    (sec_keyspace (security_redis (security a))) = Some z ->
  z < 1000 ->
  store_up 4 (sec_faults (security_redis (security a))) = true ->
  accepts_events "security_events" (sec_keyspace (security_redis (security a))) = true ->
  store_takes (priority_of_request (scrape_priority scrape_request))
    (Some current_user_id) (redis_client (job_queue a)) = true ->
  fst (handoff (new_job_id (job_env env)) "linkedin_scraping"
         (Some [("urls", JList (map JStr validated_urls));
                ("user_id", JStr current_user_id)])
         (celery_app (job_queue a))) = Returned tt ->
  fst (track_api_request "POST" "/scrape/linkedin_profiles" 200 (metrics_collector a)) =
    Returned tt ->
  let res := scrape_linkedin_profiles handoff track_api_request py_int env scrape_request
               current_user_id a in
  fst res = JobResponse (new_job_id (job_env env)) "pending"
              ("Scraping job created for " +:+ pretty (length validated_urls)
               +:+ " profiles")
  /\ keyspace (redis_client (job_queue (snd res)))
       !! job_key_of (new_job_id (job_env env)) =
     Some (job_entry (job_env env) "linkedin_scraping"
             (Some [("urls", JList (map JStr validated_urls));
                    ("user_id", JStr current_user_id)])
             (priority_of_request (scrape_priority scrape_request))
             (Some current_user_id) 3)
  /\ counter_at (quota_key_of current_user_id "scraping")
       (sec_keyspace (security_redis (security (snd res)))) = Some (z + 1)
  /\ api_errors (snd res) = api_errors a.
Proof.
  intros Hvalid Hcount Hz Hup Hevents Htakes Hhand Htrack. cbv zeta.
  unfold scrape_linkedin_profiles.
  rewrite Hvalid, (check_api_quota_counts py_int _ _ _ z);
    [|done|by eapply store_up_head].
  assert (Hlt : (z <? 1000)%Z = true) by (apply Z.ltb_lt; lia).
  rewrite Hlt.
  pose proof (create_job_returns_core Celery handoff (job_env env) "linkedin_scraping"
                (Some [("urls", JList (map JStr validated_urls));
                       ("user_id", JStr current_user_id)])
                (priority_of_request (scrape_priority scrape_request))
                (Some current_user_id) 3 (job_queue a) Htakes Hhand) as Hret.
  pose proof (create_job_final_keyspace Celery handoff (job_env env) "linkedin_scraping"
                (Some [("urls", JList (map JStr validated_urls));
                       ("user_id", JStr current_user_id)])
                (priority_of_request (scrape_priority scrape_request))
                (Some current_user_id) 3 (job_queue a) Htakes) as Hks.
  destruct (create_job _ _ _ _ _ _ _ _) as [[j|e'] q1]; simpl in Hret, Hks; [|discriminate].
  injection Hret as ->.
  pose proof (counter_at_range _ _ _ Hcount) as Hrange.
  rewrite (increment_api_usage_effect _ _ _ z);
    [|done|unfold int64_max; lia|by apply (store_up_head 2), store_up_tail].
  destruct (track_api_request _ _ _ _) as [[[]|e'] m1]; simpl in Htrack; [|discriminate].
  match goal with
  | |- context [log_security_event ?ts ?et ?u ?d ?s2] =>
      pose proof (log_security_event_returns ts et u d s2) as Hlog;
      pose proof (log_security_event_keyspace ts et u d s2
                    (quota_key_of current_user_id "scraping")) as Hkeep
  end.
  cbn [security_redis sec_keyspace sec_faults] in Hlog, Hkeep.
  destruct (log_security_event _ _ _ _ _) as [[[]|e'] s3]; cbn [fst snd] in Hlog, Hkeep.
  - cbn [fst snd job_queue security api_errors].
    split; [done|]. split; [|split; [|done]].
    + rewrite Hks. apply final_keyspace_job.
    + unfold counter_at. rewrite Hkeep by done. rewrite lookup_insert_eq.
      apply redis_integer_decimal. unfold int64_max. lia.
  - exfalso. assert (Raised e' = Returned tt) as Habs; [|discriminate Habs].
    apply Hlog.
    + by apply store_up_tail, store_up_tail.
    + unfold accepts_events. by rewrite lookup_insert_ne.
Qed.

(** X18: the job can be queued and the request still be answered 500.
    When [create_job] has returned and the transaction that counts the use
    is lost, the answer is 500 although the record of the job is in the
    store: the caller has no job id for a job that will run. *)
Theorem scrape_reports_failure_after_job env scrape_request current_user_id
    (a : Api Celery Metrics) validated_urls z rest j :
  validate_urls (urls scrape_request) = inr validated_urls ->
  counter_at (quota_key_of current_user_id "scraping")
    (sec_keyspace (security_redis (security a))) = Some z ->
  z < 1000 ->
  sec_faults (security_redis (security a)) = false :: true :: rest ->
  fst (create_job handoff (job_env env) "linkedin_scraping"
         (Some [("urls", JList (map JStr validated_urls));
                ("user_id", JStr current_user_id)])
         (priority_of_request (scrape_priority scrape_request))
         (Some current_user_id) 3 (job_queue a)) = Returned j ->
  let res := scrape_linkedin_profiles handoff track_api_request py_int env scrape_request
               current_user_id a in
  fst res = HTTPException 500 "Failed to create scraping job"
  /\ keyspace (redis_client (job_queue (snd res)))
       !! job_key_of (new_job_id (job_env env)) =
     Some (job_entry (job_env env) "linkedin_scraping"
             (Some [("urls", JList (map JStr validated_urls));
                    ("user_id", JStr current_user_id)])
             (priority_of_request (scrape_priority scrape_request))
             (Some current_user_id) 3)
  /\ api_errors (snd res) = RedisConnectionError :: api_errors a.
Proof.
  intros Hvalid Hcount Hz Hfaults Hjob. cbv zeta. unfold scrape_linkedin_profiles.
  rewrite Hvalid, (check_api_quota_counts py_int _ _ _ z); [|done|by rewrite Hfaults].
  assert (Hlt : (z <? 1000)%Z = true) by (apply Z.ltb_lt; lia).
  rewrite Hlt.
  pose proof (create_job_returned Celery handoff _ _ _ _ _ _ _ _ Hjob) as [_ Hcmds].
  pose proof (create_job_redis Celery handoff (job_env env) "linkedin_scraping"
                (Some [("urls", JList (map JStr validated_urls));
                       ("user_id", JStr current_user_id)])
                (priority_of_request (scrape_priority scrape_request))
                (Some current_user_id) 3 (job_queue a)) as Hredis.
  apply call_commands_record in Hcmds. rewrite <- Hredis in Hcmds.
  destruct (create_job _ _ _ _ _ _ _ _) as [[j'|e'] q1]; simpl in Hjob, Hcmds; [|discriminate].
  unfold increment_api_usage, on_security_redis, sec_execute.
  cbn [security_redis sec_keyspace sec_issued sec_faults security_logger].
  rewrite Hfaults. cbn [tail fst snd job_queue api_errors].
  done.
Qed.

End EndpointFacts.

(** * Concrete runs *)

(** ** Where the code departs from a claim *)

(** C1 fails: a call with a job type that is not empty and a defined
    priority returns no job id when the hand-off raises, nor when the
    store is away at the first write; the caller gets the exception. *)
Lemma create_job_valid_call_raises :
  "scrape" <> ""
  /\ fst (create_job broker_down env1 "scrape" (Some [("url", JStr "https://x")])
            JobPriority.URGENT None 3 (fresh_world [])) =
       Raised (OtherError "OperationalError")
  /\ fst (create_job broker_down env1 "scrape" (Some [("url", JStr "https://x")])
            JobPriority.URGENT None 3 (fresh_world [])) <> Returned "job_0a1b"
  /\ fst (create_job broker_accepts env1 "scrape" (Some [("url", JStr "https://x")])
            JobPriority.URGENT None 3 (fresh_world [true])) =
       Raised RedisConnectionError.
Proof. repeat split; vm_compute; (reflexivity || discriminate). Qed.

(** C4 fails: job_0a1b is queued on the URGENT lane before job_2c3d, and
    the first pull from the lane gives job_2c3d; the lane is served in the
    reverse of the order of arrival. *)
Lemma lane_not_served_in_admission_order :
  fst (submit_all broker_accepts [request_a; request_b] (fresh_world [])) =
    Returned ["job_0a1b"; "job_2c3d"]
  /\ fst (dispatch_pull JobPriority.URGENT
            (snd (submit_all broker_accepts [request_a; request_b] (fresh_world [])))) =
       Returned (Some "job_2c3d")
  /\ fst (dispatch_drain 2 JobPriority.URGENT
            (snd (submit_all broker_accepts [request_a; request_b] (fresh_world [])))) =
       Returned ["job_2c3d"; "job_0a1b"].
Proof. repeat split; vm_compute; reflexivity. Qed.

(** C2 fails: the second write is lost, the call raises, and the record
    written by the first stays in the store. *)
Lemma create_job_partial_state :
  fst (create_job broker_accepts env1 "scrape" None JobPriority.NORMAL None 3
         (fresh_world [false; true])) = Raised RedisConnectionError
  /\ keyspace (redis_client (fresh_world [false; true])) !! "job:job_0a1b" = None
  /\ keyspace (redis_client
        (snd (create_job broker_accepts env1 "scrape" None JobPriority.NORMAL None 3
                (fresh_world [false; true])))) !! "job:job_0a1b" =
       Some (job_entry env1 "scrape" None JobPriority.NORMAL None 3).
Proof. repeat split; vm_compute; reflexivity. Qed.

(** C3 fails: an empty job type, and a negative retry bound, are accepted:
    the call returns, the record is stored and the lane has the job. *)
Lemma create_job_accepts_invalid_arguments :
  fst (create_job broker_accepts env1 "" None JobPriority.NORMAL None 3
         (fresh_world [])) = Returned "job_0a1b"
  /\ keyspace (redis_client
        (snd (create_job broker_accepts env1 "" None JobPriority.NORMAL None 3
                (fresh_world [])))) !! "job:job_0a1b" =
       Some (job_entry env1 "" None JobPriority.NORMAL None 3)
  /\ list_at "queue:priority:5"
        (keyspace (redis_client
           (snd (create_job broker_accepts env1 "" None JobPriority.NORMAL None 3
                   (fresh_world []))))) = ["job_0a1b"]
  /\ fst (create_job broker_accepts env1 "scrape" None JobPriority.NORMAL None (-1)
            (fresh_world [])) = Returned "job_0a1b"
  /\ list_at "queue:priority:5"
        (keyspace (redis_client
           (snd (create_job broker_accepts env1 "scrape" None JobPriority.NORMAL None (-1)
                   (fresh_world []))))) = ["job_0a1b"].
Proof. repeat split; vm_compute; reflexivity. Qed.

(** C5 fails: on a lane that holds a job, the new id goes before it, not
    after it. *)
Lemma create_job_pushes_at_head :
  list_at "queue:priority:5"
    (keyspace (redis_client
       (snd (create_job broker_accepts env1 "scrape" None JobPriority.NORMAL None 3
               busy_world)))) = ["job_0a1b"; "job_old"]
  /\ list_at "queue:priority:5"
        (keyspace (redis_client
           (snd (create_job broker_accepts env1 "scrape" None JobPriority.NORMAL None 3
                   busy_world)))) <>
      (list_at "queue:priority:5" (keyspace (redis_client busy_world))
       ++ ["job_0a1b"])%list.
Proof. split; [vm_compute; reflexivity | vm_compute; discriminate]. Qed.

(** C6 fails: the store takes the writes, the hand-off raises, and the
    caller gets the exception, not the job id; the record stays. *)
Lemma create_job_surfaces_handoff_error :
  fst (create_job broker_down env1 "scrape" None JobPriority.NORMAL None 3
         (fresh_world [])) = Raised (OtherError "OperationalError")
  /\ fst (create_job broker_down env1 "scrape" None JobPriority.NORMAL None 3
            (fresh_world [])) <> Returned "job_0a1b"
  /\ keyspace (redis_client
        (snd (create_job broker_down env1 "scrape" None JobPriority.NORMAL None 3
                (fresh_world [])))) !! "job:job_0a1b" =
       Some (job_entry env1 "scrape" None JobPriority.NORMAL None 3).
Proof. repeat split; vm_compute; (reflexivity || discriminate). Qed.

(** C8 fails: a user id that is present and empty is treated as absent:
    the call returns, no command is sent on the user's key and the key
    does not exist afterwards. *)
Lemma create_job_skips_empty_user_id :
  fst (create_job broker_accepts env1 "scrape" None JobPriority.NORMAL (Some "") 3
         (fresh_world [])) = Returned "job_0a1b"
  /\ map command_key
        (issued (redis_client
           (snd (create_job broker_accepts env1 "scrape" None JobPriority.NORMAL
                   (Some "") 3 (fresh_world []))))) =
       ["queue:priority:5"; "job:job_0a1b"]
  /\ keyspace (redis_client
        (snd (create_job broker_accepts env1 "scrape" None JobPriority.NORMAL
                (Some "") 3 (fresh_world [])))) !! "user_jobs:" = None.
Proof. repeat split; vm_compute; reflexivity. Qed.

(** ** The theorems at concrete inputs *)

Lemma create_job_returns_job_id_witness :
  fst (create_job broker_accepts env1 "scrape" (Some [("url", JStr "https://x")])
         JobPriority.URGENT (Some "u1") 3 busy_world) = Returned "job_0a1b"
  /\ list_at "queue:priority:10"
       (keyspace (redis_client
          (snd (create_job broker_accepts env1 "scrape" (Some [("url", JStr "https://x")])
                  JobPriority.URGENT (Some "u1") 3 busy_world)))) = ["job_0a1b"].
Proof.
  pose proof (create_job_returns_job_id _ broker_accepts env1 "scrape"
                (Some [("url", JStr "https://x")]) JobPriority.URGENT (Some "u1") 3
                busy_world eq_refl eq_refl) as (Hret & _ & Hlane & _).
  split; [exact Hret | exact Hlane].
Defined.

Lemma create_job_store_failure_witness :
  faults (redis_client (fresh_world [false; true])) = (replicate 1 false ++ true :: [])%list
  /\ (1 < writes_of None)%nat
  /\ accepts_list (priority_queue_key JobPriority.NORMAL)
       (keyspace (redis_client (fresh_world [false; true]))) = true
  /\ create_job broker_accepts env1 "scrape" None JobPriority.NORMAL None 3
       (fresh_world [false; true]) =
     (Raised RedisConnectionError,
      {| redis_client :=
           {| keyspace := {[ "job:job_0a1b" :=
                               job_entry env1 "scrape" None JobPriority.NORMAL None 3 ]};
              issued := [ LPUSH "queue:priority:5" "job_0a1b";
                          SETEX "job:job_0a1b" 604800
                            (json_dumps (JDict (asdict
                               (job_record env1 "scrape" None JobPriority.NORMAL None 3)))) ];
              faults := [] |};
         celery_app := [];
         logger := [] |}).
Proof.
  split; [reflexivity|]. split; [unfold writes_of; simpl; lia|]. split; [reflexivity|].
  apply (create_job_store_failure _ broker_accepts env1 "scrape" None JobPriority.NORMAL
           None 3 (fresh_world [false; true]) 1%nat []);
    [reflexivity | unfold writes_of; simpl; lia | reflexivity | reflexivity].
Defined.

Lemma create_job_validates_nothing_witness :
  fst (create_job broker_accepts env1 "" None JobPriority.LOW None (-2)
         (fresh_world [])) = Returned "job_0a1b"
  /\ list_at "queue:priority:1"
       (keyspace (redis_client
          (snd (create_job broker_accepts env1 "" None JobPriority.LOW None (-2)
                  (fresh_world []))))) = ["job_0a1b"].
Proof.
  pose proof (create_job_validates_nothing _ broker_accepts env1 "" None JobPriority.LOW
                None (-2) (fresh_world []) (or_introl eq_refl) eq_refl eq_refl)
    as (Hret & _ & Hlane).
  split; [exact Hret | exact Hlane].
Defined.

Lemma lane_served_newest_first_witness :
  fst (dispatch_drain 2 JobPriority.URGENT
         (snd (submit_all broker_accepts [request_a; request_c; request_b]
                 (fresh_world [])))) = Returned ["job_2c3d"; "job_0a1b"]
  /\ exists s1 s2 s3,
       fst (dispatch_drain 2 JobPriority.URGENT
              (snd (submit_all broker_accepts [request_a; request_c; request_b]
                      (fresh_world [])))) =
       Returned (s1 ++ "job_2c3d" :: s2 ++ "job_0a1b" :: s3)%list.
Proof.
  apply (lane_served_newest_first _ broker_accepts [] request_a [request_c]
           request_b [] (fresh_world []) ["job_0a1b"; "job_4e5f"; "job_2c3d"]);
    reflexivity.
Defined.

Lemma create_job_pushes_on_lane_witness :
  list_at "queue:priority:5"
    (keyspace (redis_client
       (snd (create_job broker_accepts env1 "scrape" None JobPriority.NORMAL None 3
               busy_world)))) = ["job_0a1b"; "job_old"].
Proof.
  pose proof (create_job_pushes_on_lane _ broker_accepts env1 "scrape" None
                JobPriority.NORMAL None 3 busy_world eq_refl) as (_ & Hlane & _).
  exact Hlane.
Defined.

Lemma create_job_handoff_error_propagates_witness :
  fst (create_job broker_down env1 "scrape" None JobPriority.HIGH (Some "u1") 3
         (fresh_world [])) = Raised (OtherError "OperationalError")
  /\ logger (snd (create_job broker_down env1 "scrape" None JobPriority.HIGH (Some "u1") 3
                    (fresh_world []))) = [].
Proof.
  pose proof (create_job_handoff_error_propagates _ broker_down env1 "scrape" None
                JobPriority.HIGH (Some "u1") 3 (fresh_world [])
                (OtherError "OperationalError") eq_refl eq_refl)
    as (Hraised & _ & _ & Hlog).
  split; [exact Hraised | exact Hlog].
Defined.

Lemma create_job_persists_record_witness :
  exists info,
    keyspace (redis_client
      (snd (create_job broker_accepts env1 "scrape" (Some [("url", JStr "https://x")])
              JobPriority.URGENT (Some "u1") 3 (fresh_world [false]))))
      !! "job:job_0a1b" =
      Some {| value := RString (json_dumps (JDict (asdict info))); ttl := Some 604800 |}
    /\ status info = "pending".
Proof.
  destruct (create_job_persists_record _ broker_accepts env1 "scrape"
              (Some [("url", JStr "https://x")]) JobPriority.URGENT (Some "u1") 3
              (fresh_world [false]) eq_refl) as (info & Hstored & _ & Hstatus & _).
  exists info. split; [exact Hstored | exact Hstatus].
Defined.

Lemma create_job_indexes_user_witness :
  list_at "user_jobs:u1"
    (keyspace (redis_client
       (snd (create_job broker_accepts env1 "scrape" None JobPriority.NORMAL (Some "u1") 3
               (fresh_world [])))) ) = ["job_0a1b"]
  /\ ttl_at "user_jobs:u1"
       (keyspace (redis_client
          (snd (create_job broker_accepts env1 "scrape" None JobPriority.NORMAL
                  (Some "u1") 3 (fresh_world []))))) = Some 2592000.
Proof.
  apply (create_job_indexes_user _ broker_accepts env1 "scrape" None JobPriority.NORMAL
           "u1" 3 (fresh_world [])); [discriminate | reflexivity].
Defined.

Lemma create_job_parameters_never_null_witness :
  exists doc,
    stored_document "job:job_0a1b"
      (keyspace (redis_client
         (snd (create_job broker_accepts env1 "scrape" None JobPriority.NORMAL None 3
                 (fresh_world [])))) ) = Some doc
    /\ json_get "parameters" doc = Some (JDict []).
Proof.
  apply (create_job_parameters_never_null _ broker_accepts env1 "scrape" None
           JobPriority.NORMAL None 3 (fresh_world []) (or_introl eq_refl) eq_refl).
Defined.

(** ** Further theorems at concrete inputs *)

Lemma create_job_leaves_other_keys_witness :
  keyspace (redis_client
    (snd (create_job broker_accepts env1 "scrape" None JobPriority.URGENT (Some "u1") 3
            busy_world))) !! "queue:priority:5" =
  Some {| value := RList ["job_old"]; ttl := None |}.
Proof.
  apply (create_job_leaves_other_keys _ broker_accepts env1 "scrape" None
           JobPriority.URGENT (Some "u1") 3 busy_world "queue:priority:5");
    [discriminate | vm_compute; discriminate | intros _; discriminate].
Defined.

Lemma create_job_hands_off_once_witness :
  celery_app (snd (create_job broker_accepts env1 "scrape" None JobPriority.HIGH None 3
                     (fresh_world []))) = [("scrape", "job_0a1b")]
  /\ logger (snd (create_job broker_accepts env1 "scrape" None JobPriority.HIGH None 3
                    (fresh_world []))) =
       ["Created job job_0a1b of type scrape with priority HIGH"]
  /\ celery_app (snd (create_job broker_accepts env1 "scrape" None JobPriority.HIGH None 3
                        (fresh_world [false; true]))) = [].
Proof.
  pose proof (create_job_hands_off_once _ broker_accepts env1 "scrape" None
                JobPriority.HIGH None 3 (fresh_world [])) as [_ Htaken].
  destruct (Htaken eq_refl) as (Hcelery & Hlog & _).
  pose proof (create_job_hands_off_once _ broker_accepts env1 "scrape" None
                JobPriority.HIGH None 3 (fresh_world [false; true])) as [Hlost _].
  destruct (Hlost RedisConnectionError eq_refl) as (_ & Hnone & _).
  split; [exact Hcelery|]. split; [exact (Hlog eq_refl) | exact Hnone].
Defined.

Lemma create_job_record_before_lane_witness :
  keyspace (redis_client
    (snd (create_job broker_down env1 "scrape" None JobPriority.NORMAL None 3
            (fresh_world [false; false])))) !! "job:job_0a1b" =
  Some (job_entry env1 "scrape" None JobPriority.NORMAL None 3).
Proof.
  apply (create_job_record_before_lane _ broker_down env1 "scrape" None
           JobPriority.NORMAL None 3 (fresh_world [false; false])).
  vm_compute. discriminate.
Defined.

Lemma create_job_lane_of_wrong_type_witness :
  fst (create_job broker_accepts env1 "scrape" None JobPriority.NORMAL None 3
         clashing_world) = Raised RedisResponseError
  /\ celery_app (snd (create_job broker_accepts env1 "scrape" None JobPriority.NORMAL None 3
                        clashing_world)) = [].
Proof.
  pose proof (create_job_lane_of_wrong_type _ broker_accepts env1 "scrape" None
                JobPriority.NORMAL None 3 clashing_world eq_refl eq_refl)
    as (Hraised & _ & Hcelery & _).
  split; [exact Hraised | exact Hcelery].
Defined.

Lemma user_index_newest_first_witness :
  list_at "user_jobs:u1"
    (keyspace (redis_client
       (snd (submit_all broker_accepts
               [request_a; request_b;
                {| req_env := {| uuid4_hex := "4e5f";
                                 utcnow_isoformat := "2024-01-01T00:00:02" |};
                   req_job_type := "export"; req_parameters := None;
                   req_priority := JobPriority.LOW; req_user_id := Some "u1";
                   req_max_retries := 0 |}]
               (fresh_world []))))) = ["job_4e5f"; "job_0a1b"].
Proof.
  apply (user_index_newest_first _ broker_accepts
           [request_a; request_b;
            {| req_env := {| uuid4_hex := "4e5f";
                             utcnow_isoformat := "2024-01-01T00:00:02" |};
               req_job_type := "export"; req_parameters := None;
               req_priority := JobPriority.LOW; req_user_id := Some "u1";
               req_max_retries := 0 |}]
           (fresh_world []) ["job_0a1b"; "job_2c3d"; "job_4e5f"] "u1");
    [discriminate | reflexivity].
Defined.

Lemma submit_all_keeps_records_witness :
  keyspace (redis_client
    (snd (submit_all broker_accepts [request_a; request_c; request_b] (fresh_world []))))
    !! "job:job_0a1b" = Some (request_entry request_a).
Proof.
  apply (submit_all_keeps_records _ broker_accepts [request_a; request_c; request_b]
           (fresh_world []) ["job_0a1b"; "job_4e5f"; "job_2c3d"] request_a).
  - apply (bool_decide_unpack _). vm_compute. exact I.
  - reflexivity.
  - apply elem_of_cons. by left.
Defined.

Lemma sanitize_linkedin_url_result_witness :
  sanitize_linkedin_url " http://linkedin.com/in/ada?next=http://x " =
    Valid "https://linkedin.com/in/ada?next=https://x"
  /\ String.prefix "https://" "https://linkedin.com/in/ada?next=https://x" = true.
Proof.
  split; [reflexivity|].
  apply (sanitize_linkedin_url_result " http://linkedin.com/in/ada?next=http://x "
           "https://linkedin.com/in/ada?next=https://x" eq_refl).
Defined.

Lemma sanitize_linkedin_url_idempotent_witness :
  sanitize_linkedin_url "www.linkedin.com/pub/grace" = Valid "https://www.linkedin.com/pub/grace"
  /\ sanitize_linkedin_url "https://www.linkedin.com/pub/grace" =
       Valid "https://www.linkedin.com/pub/grace".
Proof.
  split; [reflexivity|].
  apply (sanitize_linkedin_url_idempotent "www.linkedin.com/pub/grace"
           "https://www.linkedin.com/pub/grace" eq_refl).
Defined.

Lemma increment_api_usage_counts_witness :
  counter_at "quota:u1:scraping"
    (sec_keyspace (security_redis
       (snd (increment_api_usage "u1" "scraping" (fresh_security []))))) = Some 1
  /\ sec_ttl_at "quota:u1:scraping"
       (sec_keyspace (security_redis
          (snd (increment_api_usage "u1" "scraping" (fresh_security []))))) = Some 86400.
Proof.
  pose proof (increment_api_usage_counts "u1" "scraping" (fresh_security []) 0
                eq_refl eq_refl eq_refl) as (_ & Hcount & Httl & _).
  split; [exact Hcount | exact Httl].
Defined.

Lemma increment_api_usage_refused_witness :
  fst (increment_api_usage "u1" "scraping" spoilt_security) = Raised RedisResponseError
  /\ sec_keyspace (security_redis (snd (increment_api_usage "u1" "scraping" spoilt_security)))
       !! "quota:u1:scraping" =
     Some {| sec_value := SString (Plain "many"); sec_ttl := Some 86400 |}.
Proof.
  pose proof (increment_api_usage_refused "u1" "scraping" spoilt_security
                {| sec_value := SString (Plain "many"); sec_ttl := Some 60 |} eq_refl)
    as Hrefused.
  destruct Hrefused as (Hraised & Hkey & _);
    [intros z Hz; vm_compute in Hz; discriminate | reflexivity |].
  split; [exact Hraised | exact Hkey].
Defined.

Lemma quota_is_a_thousand_uses_witness :
  fst (check_api_quota int_refuses "u1" "scraping"
         (snd (use_quota 3 "u1" "scraping" (fresh_security [])))) = Returned true.
Proof.
  pose proof (quota_is_a_thousand_uses int_refuses 3 "u1" "scraping" (fresh_security []) 0
                eq_refl) as Hquota.
  destruct Hquota as [_ Hcheck]; [vm_compute; discriminate | reflexivity |].
  exact Hcheck.
Defined.

Lemma log_security_event_keeps_1001_witness :
  events_at "security_events"
    (sec_keyspace (security_redis
       (snd (log_security_event "2024-01-01T00:00:00" "job_created" (Some "u1") None
               (fresh_security []))))) =
  [py_str_dict (security_event "2024-01-01T00:00:00" "job_created" (Some "u1") None)].
Proof.
  pose proof (log_security_event_keeps_1001 "2024-01-01T00:00:00" "job_created"
                (Some "u1") None (fresh_security []) eq_refl eq_refl) as (_ & Hevents & _).
  exact Hevents.
Defined.

Lemma scrape_refuses_bad_url_witness :
  scrape_linkedin_profiles broker_accepts counts_requests int_refuses scrape_env1
    scrape_bad "u1" (fresh_api [] []) =
  (HTTPException 400
     "Invalid LinkedIn URL: https://example.com/ada - Invalid LinkedIn URL format",
   fresh_api [] []).
Proof.
  apply (scrape_refuses_bad_url _ broker_accepts _ counts_requests int_refuses scrape_env1
           scrape_bad "u1" (fresh_api [] []) ["https://www.linkedin.com/in/ada"]
           "https://example.com/ada" ["x"] "Invalid LinkedIn URL format").
  - reflexivity.
  - apply Forall_cons. split; [by eexists | apply Forall_nil_2].
  - reflexivity.
Defined.

Lemma scrape_quota_exhausted_witness :
  fst (scrape_linkedin_profiles broker_accepts counts_requests int_refuses scrape_env1
         scrape_two "u1" spent_api) =
    HTTPException 429 "API quota exceeded for scraping operations"
  /\ job_queue (snd (scrape_linkedin_profiles broker_accepts counts_requests int_refuses
                       scrape_env1 scrape_two "u1" spent_api)) = fresh_world [].
Proof.
  pose proof (scrape_quota_exhausted _ broker_accepts _ counts_requests int_refuses
                scrape_env1 scrape_two "u1" spent_api
                ["https://www.linkedin.com/in/ada"; "https://linkedin.com/pub/grace"]
                1000 eq_refl eq_refl) as H.
  destruct H as (Hres & Hqueue & _); [lia | reflexivity |].
  split; [exact Hres | exact Hqueue].
Defined.

Lemma scrape_failure_keeps_quota_witness :
  fst (scrape_linkedin_profiles broker_accepts counts_requests int_refuses scrape_env1
         scrape_two "u1" (fresh_api [true] [])) =
    HTTPException 500 "Failed to create scraping job"
  /\ sec_keyspace (security_redis (security
       (snd (scrape_linkedin_profiles broker_accepts counts_requests int_refuses
               scrape_env1 scrape_two "u1" (fresh_api [true] []))))) = ∅
  /\ api_errors (snd (scrape_linkedin_profiles broker_accepts counts_requests int_refuses
                        scrape_env1 scrape_two "u1" (fresh_api [true] []))) =
       [RedisConnectionError].
Proof.
  pose proof (scrape_failure_keeps_quota _ broker_accepts _ counts_requests int_refuses
                scrape_env1 scrape_two "u1" (fresh_api [true] [])
                ["https://www.linkedin.com/in/ada"; "https://linkedin.com/pub/grace"]
                0 RedisConnectionError eq_refl eq_refl eq_refl eq_refl eq_refl)
    as (Hres & Hks & _ & Herr).
  split; [exact Hres | split; [exact Hks | exact Herr]].
Defined.

Lemma scrape_creates_job_witness :
  fst (scrape_linkedin_profiles broker_accepts counts_requests int_refuses scrape_env1
         scrape_two "u1" (fresh_api [] [])) =
    JobResponse "job_0a1b" "pending" "Scraping job created for 2 profiles"
  /\ counter_at "quota:u1:scraping"
       (sec_keyspace (security_redis (security
          (snd (scrape_linkedin_profiles broker_accepts counts_requests int_refuses
                  scrape_env1 scrape_two "u1" (fresh_api [] [])))))) = Some 1.
Proof.
  pose proof (scrape_creates_job _ broker_accepts _ counts_requests int_refuses
                scrape_env1 scrape_two "u1" (fresh_api [] [])
                ["https://www.linkedin.com/in/ada"; "https://linkedin.com/pub/grace"]
                0 eq_refl eq_refl eq_refl eq_refl eq_refl eq_refl eq_refl eq_refl)
    as (Hres & _ & Hcount & _).
  split; [exact Hres | exact Hcount].
Defined.

Lemma scrape_reports_failure_after_job_witness :
  fst (scrape_linkedin_profiles broker_accepts counts_requests int_refuses scrape_env1
         scrape_two "u1" (fresh_api [] [false; true])) =
    HTTPException 500 "Failed to create scraping job"
  /\ list_at "queue:priority:8"
       (keyspace (redis_client (job_queue
          (snd (scrape_linkedin_profiles broker_accepts counts_requests int_refuses
                  scrape_env1 scrape_two "u1" (fresh_api [] [false; true])))))) =
     ["job_0a1b"].
Proof.
  pose proof (scrape_reports_failure_after_job _ broker_accepts _ counts_requests
                int_refuses scrape_env1 scrape_two "u1" (fresh_api [] [false; true])
                ["https://www.linkedin.com/in/ada"; "https://linkedin.com/pub/grace"]
                0 [] "job_0a1b" eq_refl eq_refl eq_refl eq_refl eq_refl)
    as (Hres & _ & _).
  split; [exact Hres | reflexivity].
Defined.
